(** * Raw-transaction RPCs of the node: a shallow embedding

    The development follows [src/rpc/rawtransaction.cpp]: the two
    merkle-proof calls ([gettxoutproof], [verifytxoutproof]), the signing
    call ([signrawtransaction]) and the admission call
    ([sendrawtransaction]).  Each RPC is a function into the error monad
    [rpc]: a [JSONRPCError] thrown by the C++ code is the constructor
    [Throw], carrying the error code and the message.

    Request marshalling (UniValue type checks, hex decoding of scripts and
    transactions) is outside the embedding: the functions below take the
    decoded values, and a decoding failure is an explicit [option] where the
    source tests for it. *)

From Stdlib Require Import ZArith NArith List Sorted Ascii String Bool Lia DecimalString HexString.
From stdpp Require Import base option list sorting gmap sets strings.

Local Open Scope Z_scope.

(** ** Errors *)

Inductive RPCErrorCode : Set :=
| RPC_INVALID_PARAMETER
| RPC_INVALID_ADDRESS_OR_KEY
| RPC_INTERNAL_ERROR
| RPC_DESERIALIZATION_ERROR
| RPC_TYPE_ERROR
| RPC_WALLET_UNLOCK_NEEDED
| RPC_TRANSACTION_ERROR
| RPC_TRANSACTION_REJECTED
| RPC_TRANSACTION_ALREADY_IN_CHAIN
| RPC_MISC_ERROR.

(** The outcome of an RPC body: a value, or the [JSONRPCError] it threw.
    A [std::runtime_error] that leaves the body (a UniValue accessor
    refusing a number) is the code [RPC_MISC_ERROR] with its text, which is
    how the caller of the body reports it. *)
Inductive rpc (A : Type) : Type :=
| Return (a : A)
| Throw (code : RPCErrorCode) (msg : string).
Arguments Return {A} a.
Arguments Throw {A} code msg.

#[global] Instance rpc_ret : MRet rpc := fun A a => Return a.
#[global] Instance rpc_bind : MBind rpc := fun A B f m =>
  match m with
  | Return a => f a
  | Throw c s => Throw c s
  end.

(** ** Primitive data *)

(** A [uint256] is only compared and used as a key here. *)
Definition uint256 : Type := N.
Definition CAmount : Type := Z.

#[global] Instance byte_eq_dec : EqDecision Byte.byte := Byte.byte_eq_dec.

(** [CScript]: the serialized script, a vector of bytes. *)
Definition CScript : Type := list Byte.byte.

Record COutPoint : Type := { op_hash : uint256; op_n : N }.

Record CTxIn : Type :=
  { prevout : COutPoint; scriptSig : CScript; nSequence : N }.

Record CTxOut : Type := { nValue : CAmount; scriptPubKey : CScript }.

Record CScriptWitness : Type := { stack : list (list Byte.byte) }.

(** [CMutableTransaction]; [wit_vtxinwit] is [wit.vtxinwit], the vector of
    per-input witnesses, which may be shorter than [vin]. *)
Record CMutableTransaction : Type :=
  { nVersion : Z;
    vin : list CTxIn;
    vout : list CTxOut;
    wit_vtxinwit : list CScriptWitness;
    nLockTime : N }.

(** [CTransaction] has the same content, frozen. *)
Definition CTransaction : Type := CMutableTransaction.

Record CCoins : Type := { coins_vout : list CTxOut; coins_nHeight : Z }.

Record CBlockIndex : Type := { bi_hash : uint256; bi_nHeight : Z }.

Record CBlockHeader : Type := { hashMerkleRoot : uint256; header_hash : uint256 }.

Record CBlock : Type := { block_header : CBlockHeader; vtx : list CTransaction }.

(** ** gettxoutproof *)

(** String-level helpers of [utilstrencodings.h] and [uint256.h]. *)
Record HexParsers : Type :=
  { IsHex : string -> bool;
    uint256S : string -> uint256 }.

(** Chain state read by the proof calls under [cs_main]. *)
Record ChainState : Type :=
  { mapBlockIndex : gmap uint256 CBlockIndex;
    chainActive_Height : Z;
    chainActive_at : Z -> option CBlockIndex;
    chainActive_Contains : CBlockIndex -> bool;
    pcoinsTip_GetCoins : uint256 -> option CCoins;
    GetTransaction : uint256 -> option (CTransaction * uint256);
    ReadBlockFromDisk : CBlockIndex -> option CBlock;
    GetHash : CTransaction -> uint256;
    MerkleBlockHex : CBlock -> gset uint256 -> string }.

(** The loop over [txids]: the accumulator is [(setTxids, oneTxid)]. *)
Fixpoint parse_txids (P : HexParsers) (txids : list string)
    (acc : gset uint256 * uint256) : rpc (gset uint256 * uint256) :=
  match txids with
  | [] => Return acc
  | txid :: rest =>
      if negb (Nat.eqb (String.length txid) 64) || negb (IsHex P txid)
      then Throw RPC_INVALID_PARAMETER (String.append "Invalid txid " txid)
      else
        let hash := uint256S P txid in
        if decide (hash ∈ acc.1)
        then Throw RPC_INVALID_PARAMETER
               (String.append "Invalid parameter, duplicated txid: " txid)
        else parse_txids P rest ({[hash]} ∪ acc.1, hash)
  end.

(** Lines 377-400: the block index entry the proof is built from. *)
Definition find_block_index (P : HexParsers) (C : ChainState)
    (blockhash : option string) (oneTxid : uint256) : rpc CBlockIndex :=
  pblockindex ←
    match blockhash with
    | Some s =>
        match mapBlockIndex C !! uint256S P s with
        | None => Throw RPC_INVALID_ADDRESS_OR_KEY "Block not found"
        | Some p => Return (Some p)
        end
    | None =>
        match pcoinsTip_GetCoins C oneTxid with
        | Some coins =>
            if (0 <? coins_nHeight coins)
               && (coins_nHeight coins <=? chainActive_Height C)
            then Return (chainActive_at C (coins_nHeight coins))
            else Return None
        | None => Return None
        end
    end;
  match pblockindex with
  | Some p => Return p
  | None =>
      match GetTransaction C oneTxid with
      | None => Throw RPC_INVALID_ADDRESS_OR_KEY "Transaction not yet in block"
      | Some (_, hashBlock) =>
          if (hashBlock =? 0)%N
          then Throw RPC_INVALID_ADDRESS_OR_KEY "Transaction not yet in block"
          else
            match mapBlockIndex C !! hashBlock with
            | None => Throw RPC_INTERNAL_ERROR "Transaction index corrupt"
            | Some p => Return p
            end
      end
  end.

(** [ntxFound]: the transactions of the block whose id was asked for. *)
Definition ntxFound (C : ChainState) (setTxids : gset uint256) (block : CBlock) : nat :=
  length (filter (fun tx => GetHash C tx ∈ setTxids) (vtx block)).

Definition build_proof (C : ChainState) (setTxids : gset uint256)
    (pblockindex : CBlockIndex) : rpc string :=
  match ReadBlockFromDisk C pblockindex with
  | None => Throw RPC_INTERNAL_ERROR "Can't read block from disk"
  | Some block =>
      if negb (Nat.eqb (ntxFound C setTxids block) (size setTxids))
      then Throw RPC_INVALID_ADDRESS_OR_KEY
             "(Not all) transactions not found in specified block"
      else Return (MerkleBlockHex C block setTxids)
  end.

Definition gettxoutproof (P : HexParsers) (C : ChainState)
    (txids : list string) (blockhash : option string) : rpc string :=
  parsed ← parse_txids P txids (∅, 0%N);
  pblockindex ← find_block_index P C blockhash parsed.2;
  build_proof C parsed.1 pblockindex.

(** ** verifytxoutproof *)

(** [CPartialMerkleTree]: leaf count, traversal bits, retained hashes. *)
Record CPartialMerkleTree : Type :=
  { nTransactions : N; vBits : list bool; vHash : list uint256 }.

Record CMerkleBlock : Type := { header : CBlockHeader; txn : CPartialMerkleTree }.

(** What [merkleblock.h] and [uint256.h] give the verifier:
    [ExtractMatches] returns the recomputed root with [vMatch] and
    [vIndex] filled in. *)
Record MerkleCodec : Type :=
  { ExtractMatches : CPartialMerkleTree -> uint256 * list uint256 * list N;
    GetHex : uint256 -> string }.

(** Line 446: the header is indexed and its entry is on the active chain. *)
Definition block_in_chain (C : ChainState) (hash : uint256) : bool :=
  match mapBlockIndex C !! hash with
  | Some pindex => chainActive_Contains C pindex
  | None => false
  end.

Definition verifytxoutproof (M : MerkleCodec) (C : ChainState)
    (merkleBlock : CMerkleBlock) : rpc (list string) :=
  let '(root, vMatch, vIndex) := ExtractMatches M (txn merkleBlock) in
  if negb (root =? hashMerkleRoot (header merkleBlock))%N
  then Return []
  else if negb (block_in_chain C (header_hash (header merkleBlock)))
  then Throw RPC_INVALID_ADDRESS_OR_KEY "Block not found in chain"
  else Return (GetHex M <$> vMatch).

(** ** sendrawtransaction *)

Record CValidationState : Type :=
  { IsInvalid : bool; GetRejectCode : Z; GetRejectReason : string }.

(** The pool and chain as [sendrawtransaction] sees them.
    [AcceptToMemoryPool tx fee] gives the returned flag, the validation
    state and [fMissingInputs]. *)
Record PoolState : Type :=
  { mempool_exists : uint256 -> bool;
    pcoinsTip_AccessCoins : uint256 -> option CCoins;
    maxTxFee : CAmount;
    AcceptToMemoryPool : CTransaction -> CAmount -> bool * CValidationState * bool;
    tx_GetHash : CTransaction -> uint256;
    hash_GetHex : uint256 -> string }.

(** Calls made to the collaborators, in program order. *)
Inductive Event : Type :=
| EvAcceptToMemoryPool (tx : CTransaction) (nMaxRawTxFee : CAmount)
| EvRelayTransaction (tx : CTransaction).

(** [strprintf("%i: %s", code, reason)] *)
Definition strprintf_i_s (code : Z) (reason : string) : string :=
  String.append (DecimalString.NilZero.string_of_int (Z.to_int code))
    (String.append ": " reason).

Definition fHaveChain (existingCoins : option CCoins) : bool :=
  match existingCoins with
  | Some c => coins_nHeight c <? 1000000000
  | None => false
  end.

(** [decoded] is the outcome of [DecodeHexTx]; [allowhighfees] is
    [params[1]] when given. *)
Definition sendrawtransaction (S : PoolState) (decoded : option CTransaction)
    (allowhighfees : option bool) : list Event * rpc string :=
  match decoded with
  | None => ([], Throw RPC_DESERIALIZATION_ERROR "TX decode failed")
  | Some tx =>
      let hashTx := tx_GetHash S tx in
      let nMaxRawTxFee :=
        match allowhighfees with Some true => 0 | _ => maxTxFee S end in
      let existingCoins := pcoinsTip_AccessCoins S hashTx in
      let fHaveMempool := mempool_exists S hashTx in
      if negb fHaveMempool && negb (fHaveChain existingCoins) then
        let '(accepted, state, fMissingInputs) :=
          AcceptToMemoryPool S tx nMaxRawTxFee in
        if negb accepted then
          ([EvAcceptToMemoryPool tx nMaxRawTxFee],
           if IsInvalid state
           then Throw RPC_TRANSACTION_REJECTED
                  (strprintf_i_s (GetRejectCode state) (GetRejectReason state))
           else if fMissingInputs
                then Throw RPC_TRANSACTION_ERROR "Missing inputs"
                else Throw RPC_TRANSACTION_ERROR (GetRejectReason state))
        else
          ([EvAcceptToMemoryPool tx nMaxRawTxFee; EvRelayTransaction tx],
           Return (hash_GetHex S hashTx))
      else if fHaveChain existingCoins then
        ([], Throw RPC_TRANSACTION_ALREADY_IN_CHAIN
               "transaction already in block chain")
      else ([EvRelayTransaction tx], Return (hash_GetHex S hashTx))
  end.

(** ** signrawtransaction: data *)

Definition CKey : Type := list Byte.byte.

(** [CBasicKeyStore], by what was added to it; only [ProduceSignature]
    reads it. *)
Record KeyStore : Type := { ks_keys : list CKey; ks_scripts : list CScript }.

Definition KeyStore_empty : KeyStore := {| ks_keys := []; ks_scripts := [] |}.

Definition AddKey (key : CKey) (ks : KeyStore) : KeyStore :=
  {| ks_keys := key :: ks_keys ks; ks_scripts := ks_scripts ks |}.

Definition AddCScript (redeemScript : CScript) (ks : KeyStore) : KeyStore :=
  {| ks_keys := ks_keys ks; ks_scripts := redeemScript :: ks_scripts ks |}.

(** Modelled from the spec: [SignatureData] is declared in [script/sign.h],
    which is not among the sources.  Section 3: the per-input working
    solution, unlocking script bytes and/or witness stack. *)
Record SignatureData : Type :=
  { sd_scriptSig : CScript; sd_scriptWitness : CScriptWitness }.

(** [SignatureData sigdata;] *)
Definition SignatureData_empty : SignatureData :=
  {| sd_scriptSig := []; sd_scriptWitness := {| stack := [] |} |}.

Definition ScriptError : Type := N.

(** The script machinery the signing call drives ([script/sign.h],
    [script/interpreter.h], [script/script.h], [core_io.h]); the sighash
    constants are those of [script/interpreter.h]. *)
Record ScriptEngine : Type :=
  { SIGHASH_ALL : Z;
    SIGHASH_NONE : Z;
    SIGHASH_SINGLE : Z;
    SIGHASH_ANYONECANPAY : Z;
    STANDARD_SCRIPT_VERIFY_FLAGS : N;
    ProduceSignature :
      KeyStore -> CMutableTransaction -> nat -> CAmount -> Z -> CScript -> SignatureData;
    CombineSignatures :
      CScript -> CTransaction -> nat -> CAmount ->
      SignatureData -> SignatureData -> SignatureData;
    DataFromTransaction : CMutableTransaction -> nat -> SignatureData;
    VerifyScript :
      CScript -> CScript -> option CScriptWitness -> N ->
      CTransaction -> nat -> CAmount -> bool * ScriptError;
    ScriptErrorString : ScriptError -> string;
    ScriptToAsmStr : CScript -> string;
    IsPayToScriptHash : CScript -> bool;
    IsPayToWitnessScriptHash : CScript -> bool }.

(** One entry of [prevtxs], decoded. *)
Record PrevOut : Type :=
  { p_txid : uint256;
    p_vout : Z;
    p_scriptPubKey : CScript;
    p_redeemScript : option CScript;
    p_amount : option CAmount }.

(** The node around the signing call: the chain-plus-pool coin lookup the
    cache is filled from, key decoding, the wallet when there is one. *)
Record SignEnv : Type :=
  { viewMempool_GetCoins : uint256 -> option CCoins;
    SetString : string -> option CKey;
    key_IsValid : CKey -> bool;
    pwalletMain : option KeyStore;
    EnsureWalletIsUnlocked : rpc unit;
    RPCTypeCheckObj_redeemScript : PrevOut -> rpc unit;
    EncodeHexTx : CMutableTransaction -> string }.

(** The decoded parameters: the transaction variants of [params[0]]
    ([None] when a variant fails to decode), [prevtxs] (an entry that is not
    an object is [None]), [privatekeys], [sighashtype]. *)
Record SignRequest : Type :=
  { req_txVariants : option (list CMutableTransaction);
    req_prevTxs : option (list (option PrevOut));
    req_privatekeys : option (list string);
    req_sighashtype : option string }.

(** One element of [vErrors]; the id and the script are kept as values,
    their hex rendering is left to the caller. *)
Record TxInError : Type :=
  { err_txid : uint256;
    err_vout : N;
    err_scriptSig : CScript;
    err_sequence : N;
    err_error : string }.

Definition TxInErrorToJSON (txin : CTxIn) (vErrorsRet : list TxInError)
    (strMessage : string) : list TxInError :=
  vErrorsRet ++
  [ {| err_txid := op_hash (prevout txin);
       err_vout := op_n (prevout txin);
       err_scriptSig := scriptSig txin;
       err_sequence := nSequence txin;
       err_error := strMessage |} ].

Record SignResult : Type :=
  { res_hex : string; res_complete : bool; res_errors : option (list TxInError) }.

(** ** signrawtransaction: the coin view *)

(** Modelled from the spec: [CTxOut::IsNull], the default [CTxOut] and
    [CCoins::IsAvailable] are in [primitives/transaction.h] and [coins.h],
    which are not among the sources.  Section 3 gives a coin a spent flag;
    an output slot is available when it exists and is not the null (spent)
    output, whose amount is -1. *)
Definition CTxOut_IsNull (o : CTxOut) : bool := nValue o =? -1.

Definition CTxOut_null : CTxOut := {| nValue := -1; scriptPubKey := [] |}.

Definition IsAvailable (coins : CCoins) (nPos : nat) : bool :=
  match coins_vout coins !! nPos with
  | Some o => negb (CTxOut_IsNull o)
  | None => false
  end.

(** [view.AccessCoins(prevHash)] while the cache is backed by the
    chain-plus-pool view: a miss that the backend resolves is cached. *)
Definition AccessCoins_cached (backend : uint256 -> option CCoins)
    (cacheCoins : gmap uint256 CCoins) (txid : uint256) : gmap uint256 CCoins :=
  match cacheCoins !! txid with
  | Some _ => cacheCoins
  | None =>
      match backend txid with
      | Some coins => <[txid := coins]> cacheCoins
      | None => cacheCoins
      end
  end.

(** Lines 787-802. *)
Definition fetch_inputs (backend : uint256 -> option CCoins)
    (mergedTx : CMutableTransaction) : gmap uint256 CCoins :=
  fold_left (fun cache txin => AccessCoins_cached backend cache (op_hash (prevout txin)))
    (vin mergedTx) ∅.

(** [view.ModifyCoins(txid)] over the dummy backend: the cached entry, or a
    fresh empty one. *)
Definition ModifyCoins (cacheCoins : gmap uint256 CCoins) (txid : uint256) : CCoins :=
  default {| coins_vout := []; coins_nHeight := 0 |} (cacheCoins !! txid).

(** [view.AccessCoins] in the signing loop, over the dummy backend; then
    the availability test of line 925. *)
Definition available_output (view : gmap uint256 CCoins) (o : COutPoint) : option CTxOut :=
  match view !! op_hash o with
  | None => None
  | Some coins =>
      if IsAvailable coins (N.to_nat (op_n o))
      then coins_vout coins !! N.to_nat (op_n o)
      else None
  end.

(** ** signrawtransaction: keys and declared previous outputs *)

Fixpoint load_keys (E : SignEnv) (keys : list string) (tempKeystore : KeyStore)
    : rpc KeyStore :=
  match keys with
  | [] => Return tempKeystore
  | k :: rest =>
      match SetString E k with
      | None => Throw RPC_INVALID_ADDRESS_OR_KEY "Invalid private key"
      | Some key =>
          if negb (key_IsValid E key)
          then Throw RPC_INVALID_ADDRESS_OR_KEY "Private key outside allowed range"
          else load_keys E rest (AddKey key tempKeystore)
      end
  end.

(** Lines 804-824: [(fGivenKeys, tempKeystore)]. *)
Definition keys_stage (E : SignEnv) (privatekeys : option (list string))
    : rpc (bool * KeyStore) :=
  match privatekeys with
  | Some keys => ks ← load_keys E keys KeyStore_empty; Return (true, ks)
  | None =>
      match pwalletMain E with
      | Some _ => _ ← EnsureWalletIsUnlocked E; Return (false, KeyStore_empty)
      | None => Return (false, KeyStore_empty)
      end
  end.

Definition dq : string := String "034"%char EmptyString.
Definition nl : string := String "010"%char EmptyString.

Definition expected_object_msg : string :=
  String.concat dq
    ["expected object with {"; "txid'"; ","; "vout"; ","; "scriptPubKey"; "}"]%string.

Definition mismatch_msg (S : ScriptEngine) (known declared : CScript) : string :=
  String.concat EmptyString
    ["Previous output scriptPubKey mismatch:"; nl; ScriptToAsmStr S known;
     nl; "vs:"; nl; ScriptToAsmStr S declared]%string.

(** Lines 852-859: the declared script conflicts with the coin the view
    already has at this outpoint. *)
Definition script_conflict (coins : CCoins) (nOut : nat) (declared : CScript)
    : option CScript :=
  if IsAvailable coins nOut then
    match coins_vout coins !! nOut with
    | Some o =>
        if negb (bool_decide (scriptPubKey o = declared))
        then Some (scriptPubKey o)
        else None
    | None => None
    end
  else None.

(** Lines 860-866: the overlay write. *)
Definition overlay_write (coins : CCoins) (nOut : nat) (p : PrevOut) : CCoins :=
  let vout1 :=
    if (length (coins_vout coins) <=? nOut)%nat
    then resize (nOut + 1) CTxOut_null (coins_vout coins)
    else coins_vout coins in
  {| coins_vout :=
       <[nOut := {| nValue := default 0 (p_amount p);
                    scriptPubKey := p_scriptPubKey p |}]> vout1;
     coins_nHeight := coins_nHeight coins |}.

(** The body of the loop over [prevTxs] (lines 830-885), on the state
    [(view, tempKeystore)]. *)
Definition declare_prevout (S : ScriptEngine) (E : SignEnv) (fGivenKeys : bool)
    (st : gmap uint256 CCoins * KeyStore) (entry : option PrevOut)
    : rpc (gmap uint256 CCoins * KeyStore) :=
  match entry with
  | None => Throw RPC_DESERIALIZATION_ERROR expected_object_msg
  | Some p =>
      if p_vout p <? 0
      then Throw RPC_DESERIALIZATION_ERROR "vout must be positive"
      else
        let nOut := Z.to_nat (p_vout p) in
        let coins := ModifyCoins st.1 (p_txid p) in
        match script_conflict coins nOut (p_scriptPubKey p) with
        | Some known =>
            Throw RPC_DESERIALIZATION_ERROR (mismatch_msg S known (p_scriptPubKey p))
        | None =>
            let view := <[p_txid p := overlay_write coins nOut p]> st.1 in
            if fGivenKeys
               && (IsPayToScriptHash S (p_scriptPubKey p)
                   || IsPayToWitnessScriptHash S (p_scriptPubKey p))
            then
              _ ← RPCTypeCheckObj_redeemScript E p;
              match p_redeemScript p with
              | Some redeemScript => Return (view, AddCScript redeemScript st.2)
              | None => Return (view, st.2)
              end
            else Return (view, st.2)
        end
  end.

Fixpoint declare_all (S : ScriptEngine) (E : SignEnv) (fGivenKeys : bool)
    (prevTxs : list (option PrevOut)) (st : gmap uint256 CCoins * KeyStore)
    : rpc (gmap uint256 CCoins * KeyStore) :=
  match prevTxs with
  | [] => Return st
  | entry :: rest =>
      st' ← declare_prevout S E fGivenKeys st entry;
      declare_all S E fGivenKeys rest st'
  end.

(** Lines 895-911. *)
Definition mapSigHashValues (S : ScriptEngine) : gmap string Z :=
  list_to_map
    [("ALL", SIGHASH_ALL S);
     ("ALL|ANYONECANPAY", Z.lor (SIGHASH_ALL S) (SIGHASH_ANYONECANPAY S));
     ("NONE", SIGHASH_NONE S);
     ("NONE|ANYONECANPAY", Z.lor (SIGHASH_NONE S) (SIGHASH_ANYONECANPAY S));
     ("SINGLE", SIGHASH_SINGLE S);
     ("SINGLE|ANYONECANPAY", Z.lor (SIGHASH_SINGLE S) (SIGHASH_ANYONECANPAY S))]%string.

Definition parse_sighash (S : ScriptEngine) (sighashtype : option string) : rpc Z :=
  match sighashtype with
  | None => Return (SIGHASH_ALL S)
  | Some strHashType =>
      match mapSigHashValues S !! strHashType with
      | Some v => Return v
      | None => Throw RPC_INVALID_PARAMETER "Invalid sighash param"
      end
  end.

(** ** signrawtransaction: the signing loop *)

(** Line 913. *)
Definition fHashSingle (S : ScriptEngine) (nHashType : Z) : bool :=
  Z.land nHashType (Z.lnot (SIGHASH_ANYONECANPAY S)) =? SIGHASH_SINGLE S.

(** Lines 932-935: the solution the production step leaves in [sigdata]. *)
Definition produce (S : ScriptEngine) (keystore : KeyStore)
    (mergedTx : CMutableTransaction) (i : nat) (amount : CAmount)
    (nHashType : Z) (prevPubKey : CScript) : SignatureData :=
  if negb (fHashSingle S nHashType) || (i <? length (vout mergedTx))%nat
  then ProduceSignature S keystore mergedTx i amount nHashType prevPubKey
  else SignatureData_empty.

(** Lines 938-940: every variant is merged into [sigdata], in the order of
    [txVariants]. *)
Definition merge_variants {SD TxV : Type} (combine : SD -> SD -> SD)
    (data : TxV -> SD) (txVariants : list TxV) (sigdata : SD) : SD :=
  fold_left (fun sd txv => combine sd (data txv)) txVariants sigdata.

Definition witness_IsNull (w : CScriptWitness) : bool :=
  match stack w with [] => true | _ => false end.

(** Modelled from the spec: [UpdateTransaction] is defined in
    [script/sign.cpp], which is not among the sources.  Section 4.2, step 4:
    write the combined solution into the input's unlocking script and
    witness.  The witness vector gets one slot per input when a witness has
    to be stored. *)
Definition UpdateTransaction (tx : CMutableTransaction) (nIn : nat)
    (data : SignatureData) : CMutableTransaction :=
  {| nVersion := nVersion tx;
     vin :=
       alter (fun txin => {| prevout := prevout txin;
                             scriptSig := sd_scriptSig data;
                             nSequence := nSequence txin |}) nIn (vin tx);
     vout := vout tx;
     wit_vtxinwit :=
       if negb (witness_IsNull (sd_scriptWitness data))
          || (nIn <? length (wit_vtxinwit tx))%nat
       then <[nIn := sd_scriptWitness data]>
              (resize (length (vin tx)) {| stack := [] |} (wit_vtxinwit tx))
       else wit_vtxinwit tx;
     nLockTime := nLockTime tx |}.

(** The body of the loop of line 922, on the state [(mergedTx, vErrors)]. *)
Definition sign_input (S : ScriptEngine) (view : gmap uint256 CCoins)
    (keystore : KeyStore) (nHashType : Z) (txVariants : list CMutableTransaction)
    (txConst : CTransaction) (i : nat)
    (st : CMutableTransaction * list TxInError)
    : CMutableTransaction * list TxInError :=
  let '(mergedTx, vErrors) := st in
  match vin mergedTx !! i with
  | None => st
  | Some txin =>
      match available_output view (prevout txin) with
      | None =>
          (mergedTx, TxInErrorToJSON txin vErrors "Input not found or already spent")
      | Some coin =>
          let prevPubKey := scriptPubKey coin in
          let amount := nValue coin in
          let sigdata := produce S keystore mergedTx i amount nHashType prevPubKey in
          let sigdata :=
            merge_variants (CombineSignatures S prevPubKey txConst i amount)
              (fun txv => DataFromTransaction S txv i) txVariants sigdata in
          let mergedTx := UpdateTransaction mergedTx i sigdata in
          let txin := default txin (vin mergedTx !! i) in
          let '(ok, serror) :=
            VerifyScript S (scriptSig txin) prevPubKey (wit_vtxinwit mergedTx !! i)
              (STANDARD_SCRIPT_VERIFY_FLAGS S) txConst i amount in
          if negb ok
          then (mergedTx, TxInErrorToJSON txin vErrors (ScriptErrorString S serror))
          else (mergedTx, vErrors)
      end
  end.

(** Inputs [i], [i+1], ..., [i+k-1], in this order. *)
Definition sign_range (S : ScriptEngine) (view : gmap uint256 CCoins)
    (keystore : KeyStore) (nHashType : Z) (txVariants : list CMutableTransaction)
    (txConst : CTransaction) (i k : nat)
    (st : CMutableTransaction * list TxInError)
    : CMutableTransaction * list TxInError :=
  fold_left (fun st j => sign_input S view keystore nHashType txVariants txConst j st)
    (seq i k) st.

(** Lines 916-948.  [UpdateTransaction] keeps the number of inputs, so the
    bound [mergedTx.vin.size()] is the same at every iteration. *)
Definition sign_all (S : ScriptEngine) (view : gmap uint256 CCoins)
    (keystore : KeyStore) (nHashType : Z) (txVariants : list CMutableTransaction)
    (mergedTx : CMutableTransaction) : CMutableTransaction * list TxInError :=
  sign_range S view keystore nHashType txVariants mergedTx
    0 (length (vin mergedTx)) (mergedTx, []).

(** Line 890 (line 892 when there is no wallet). *)
Definition choose_keystore (E : SignEnv) (fGivenKeys : bool)
    (tempKeystore : KeyStore) : KeyStore :=
  match pwalletMain E with
  | Some wallet => if fGivenKeys then tempKeystore else wallet
  | None => tempKeystore
  end.

(** Lines 765-948: the finalized transaction and the error records. *)
Definition sign_engine (S : ScriptEngine) (E : SignEnv) (req : SignRequest)
    : rpc (CMutableTransaction * list TxInError) :=
  match req_txVariants req with
  | None => Throw RPC_DESERIALIZATION_ERROR "TX decode failed"
  | Some [] => Throw RPC_DESERIALIZATION_ERROR "Missing transaction"
  | Some ((mergedTx :: _) as txVariants) =>
      let view := fetch_inputs (viewMempool_GetCoins E) mergedTx in
      keys ← keys_stage E (req_privatekeys req);
      declared ←
        match req_prevTxs req with
        | Some prevTxs => declare_all S E keys.1 prevTxs (view, keys.2)
        | None => Return (view, keys.2)
        end;
      let keystore := choose_keystore E keys.1 declared.2 in
      nHashType ← parse_sighash S (req_sighashtype req);
      Return (sign_all S declared.1 keystore nHashType txVariants mergedTx)
  end.

(** [vErrors.empty()] *)
Definition empty_errors (vErrors : list TxInError) : bool :=
  match vErrors with [] => true | _ => false end.

(** Lines 949-958. *)
Definition signrawtransaction (S : ScriptEngine) (E : SignEnv) (req : SignRequest)
    : rpc SignResult :=
  signed ← sign_engine S E req;
  let fComplete := empty_errors signed.2 in
  Return {| res_hex := EncodeHexTx E signed.1;
            res_complete := fComplete;
            res_errors := if negb (empty_errors signed.2) then Some signed.2 else None |}.

(** ** Combination of partial solutions *)

Module SigCombine.
Section Model.
Context {Sig PubKey : Type} `{Countable Sig, Countable PubKey}.

(** The signature checker for the input at hand, and the ordered
    public-key list of its locking script. *)
Variable CheckSig : Sig -> PubKey -> bool.
Variable pubkeys : list PubKey.

(** The valid signature/pubkey pairs a solution carries. *)
Definition valid_pairs (content : list Sig) : gset (Sig * PubKey) :=
  list_to_set
    (filter (fun p => CheckSig p.1 p.2 = true) (list_prod content pubkeys)).

(** The signatures of a set of pairs that are matched to the key [k]. *)
Definition matched_to (pairs : gset (Sig * PubKey)) (k : PubKey) : list Sig :=
  (elements (filter (fun p => p.2 = k) pairs)).*1.

(** The solution of a set of pairs: signatures laid out along the ordered
    public-key list. *)
Definition solution_of (pairs : gset (Sig * PubKey)) : list Sig :=
  flat_map (matched_to pairs) pubkeys.

(** Modelled from the spec: [CombineSignatures] is defined in
    [script/sign.cpp], which is not among the sources.  Section 4.2,
    step 3: the combined unlocking content depends only on the set of
    distinct valid signature/pubkey pairs discovered; signatures are
    matched against the ordered public-key list; a previously valid
    signature is never removed. *)
Definition CombineSignatures (sigs1 sigs2 : list Sig) : list Sig :=
  solution_of (valid_pairs sigs1 ∪ valid_pairs sigs2).

(** The sets of pairs that solutions carry: every pair is valid for a key
    of the list, and a signature comes with all the keys it is valid for. *)
Definition saturated (pairs : gset (Sig * PubKey)) : Prop :=
  forall s k, (s, k) ∈ pairs ->
    k ∈ pubkeys /\ CheckSig s k = true
    /\ forall k', k' ∈ pubkeys -> CheckSig s k' = true -> (s, k') ∈ pairs.

(** All the pairs carried by the variants, for the input at hand. *)
Definition discovered {TxV : Type} (data : TxV -> list Sig) (txVariants : list TxV)
    : gset (Sig * PubKey) :=
  ⋃ (valid_pairs ∘ data <$> txVariants).
End Model.
End SigCombine.

(** ** Notions used in the statements *)

(** The structure of a transaction: everything but the unlocking scripts
    and the witnesses. *)
Definition outline (tx : CMutableTransaction)
    : Z * list (COutPoint * N) * list CTxOut * N :=
  (nVersion tx, (fun txin => (prevout txin, nSequence txin)) <$> vin tx,
   vout tx, nLockTime tx).

(** The witness of input [i]; an input without a slot in [wit.vtxinwit] has
    the empty witness (line 945 passes NULL for it). *)
Definition witness_at (tx : CMutableTransaction) (i : nat) : CScriptWitness :=
  default {| stack := [] |} (wit_vtxinwit tx !! i).

(** The same script engine with another signature producer. *)
Definition with_producer
    (produce_fn : KeyStore -> CMutableTransaction -> nat -> CAmount -> Z -> CScript ->
                  SignatureData)
    (S : ScriptEngine) : ScriptEngine :=
  {| SIGHASH_ALL := SIGHASH_ALL S;
     SIGHASH_NONE := SIGHASH_NONE S;
     SIGHASH_SINGLE := SIGHASH_SINGLE S;
     SIGHASH_ANYONECANPAY := SIGHASH_ANYONECANPAY S;
     STANDARD_SCRIPT_VERIFY_FLAGS := STANDARD_SCRIPT_VERIFY_FLAGS S;
     ProduceSignature := produce_fn;
     CombineSignatures := CombineSignatures S;
     DataFromTransaction := DataFromTransaction S;
     VerifyScript := VerifyScript S;
     ScriptErrorString := ScriptErrorString S;
     ScriptToAsmStr := ScriptToAsmStr S;
     IsPayToScriptHash := IsPayToScriptHash S;
     IsPayToWitnessScriptHash := IsPayToWitnessScriptHash S |}.

(** The error record [e] is about input [i] of [tx]. *)
Definition error_of_input (tx : CMutableTransaction) (i : nat) (e : TxInError) : Prop :=
  exists txin,
    vin tx !! i = Some txin
    /\ err_txid e = op_hash (prevout txin)
    /\ err_vout e = op_n (prevout txin)
    /\ err_sequence e = nSequence txin.

(** The records of [vErrors] are about inputs of [tx] of increasing index:
    at most one record per input, in input order. *)
Definition in_input_order (tx : CMutableTransaction) (vErrors : list TxInError) : Prop :=
  exists idxs : list nat,
    StronglySorted lt idxs /\ Forall2 (error_of_input tx) idxs vErrors.

(** The outpoint named by a declaration of [prevtxs]. *)
Definition declared_outpoint (p : PrevOut) : COutPoint :=
  {| op_hash := p_txid p; op_n := Z.to_N (p_vout p) |}.

(** * The remaining calls of the file *)

(** ** JSON values *)

(** [UniValue], with numbers kept as integers; amounts are rendered by
    [ValueFromAmount], which gives the value it builds. *)
#[local] Unset Elimination Schemes.
Inductive UniValue : Type :=
| VNULL
| VBOOL (b : bool)
| VNUM (n : Z)
| VSTR (s : string)
| VARR (values : list UniValue)
| VOBJ (entries : list (string * UniValue)).
#[local] Set Elimination Schemes.

(** [find_value(obj, name)]: the value of the first entry named [name],
    [NullUniValue] when there is none. *)
Fixpoint find_value (entries : list (string * UniValue)) (name : string) : UniValue :=
  match entries with
  | [] => VNULL
  | (k, v) :: rest => if String.eqb k name then v else find_value rest name
  end.

Definition has_key (entries : list (string * UniValue)) (name : string) : bool :=
  existsb (fun kv => String.eqb kv.1 name) entries.

Definition isNum (v : UniValue) : bool :=
  match v with VNUM _ => true | _ => false end.

(** ** Rendering of scripts and transactions *)

Definition txnouttype : Type := N.

Inductive CTxDestination : Type :=
| CNoDestination
| CKeyID (h : N)
| CScriptID (h : N).

#[global] Instance CTxDestination_eq_dec : EqDecision CTxDestination.
Proof. solve_decision. Defined.

(** [CSpentIndexValue], as far as it is printed. *)
Record CSpentIndexValue : Type :=
  { sp_txid : uint256;
    sp_inputIndex : Z;
    sp_blockHeight : Z;
    sp_satoshis : CAmount;
    sp_addressType : Z;
    sp_addressHash : N }.

Module Render.
(** What the printing functions take from [core_io.h], [base58.h],
    [script/standard.h], [primitives/transaction.h] and the spent index. *)
Record env : Type :=
  { GetHex : uint256 -> string;
    HexStr : list Byte.byte -> string;
    ScriptToAsmStr : CScript -> bool -> string;
    ExtractDestinations : CScript -> bool * txnouttype * list CTxDestination * Z;
    GetTxnOutputType : txnouttype -> string;
    AddressToString : CTxDestination -> string;
    Hash160 : CScript -> N;
    ValueFromAmount : CAmount -> UniValue;
    GetHash : CTransaction -> uint256;
    GetWitnessHash : CTransaction -> uint256;
    GetSerializeSize : CTransaction -> Z;
    GetVirtualTransactionSize : CTransaction -> Z;
    IsCoinBase : CTransaction -> bool;
    wit_IsNull : list CScriptWitness -> bool;
    txinwit_IsNull : CScriptWitness -> bool;
    GetSpentIndex : uint256 -> N -> option CSpentIndexValue;
    GetBlockTime : CBlockIndex -> Z;
    EncodeHexTx : CTransaction -> string;
    DecodeHexTx : string -> option CTransaction;
    ParseHexV : string -> rpc (list Byte.byte) }.
End Render.

(** [ScriptPubKeyToJSON]: the entries pushed to [out]. *)
Definition ScriptPubKeyToJSON (R : Render.env) (scriptPubKey : CScript)
    (out : list (string * UniValue)) (fIncludeHex : bool) : list (string * UniValue) :=
  let out := out ++ [("asm", VSTR (Render.ScriptToAsmStr R scriptPubKey false))]%string in
  let out :=
    if fIncludeHex then out ++ [("hex", VSTR (Render.HexStr R scriptPubKey))]%string
    else out in
  let '(ok, type, addresses, nRequired) := Render.ExtractDestinations R scriptPubKey in
  if negb ok
  then out ++ [("type", VSTR (Render.GetTxnOutputType R type))]%string
  else
    out ++ [("reqSigs", VNUM nRequired);
            ("type", VSTR (Render.GetTxnOutputType R type));
            ("addresses", VARR ((fun addr => VSTR (Render.AddressToString R addr))
                                  <$> addresses))]%string.

(** The witness part of an input entry (the inner [if]s of the input
    loops).  An input beyond the end of [wit.vtxinwit] is printed without
    witness. *)
Definition txinwitness_entries (R : Render.env) (tx : CTransaction) (i : nat)
    : list (string * UniValue) :=
  if negb (Render.wit_IsNull R (wit_vtxinwit tx)) then
    match wit_vtxinwit tx !! i with
    | Some w =>
        if negb (Render.txinwit_IsNull R w)
        then [("txinwitness", VARR ((fun item => VSTR (Render.HexStr R item)) <$> stack w))]%string
        else []
    | None => []
    end
  else [].

(** One input of [TxToJSON]. *)
Definition txin_entry (R : Render.env) (tx : CTransaction) (i : nat) (txin : CTxIn)
    : UniValue :=
  VOBJ
    ((if Render.IsCoinBase R tx
      then [("coinbase", VSTR (Render.HexStr R (scriptSig txin)))]%string
      else [("txid", VSTR (Render.GetHex R (op_hash (prevout txin))));
            ("vout", VNUM (Z.of_N (op_n (prevout txin))));
            ("scriptSig",
             VOBJ [("asm", VSTR (Render.ScriptToAsmStr R (scriptSig txin) true));
                   ("hex", VSTR (Render.HexStr R (scriptSig txin)))])]%string)
     ++ txinwitness_entries R tx i
     ++ [("sequence", VNUM (Z.of_N (nSequence txin)))]%string).

(** One output of [TxToJSON]. *)
Definition txout_entry (R : Render.env) (i : nat) (txout : CTxOut) : UniValue :=
  VOBJ [("value", Render.ValueFromAmount R (nValue txout));
        ("n", VNUM (Z.of_nat i));
        ("scriptPubKey", VOBJ (ScriptPubKeyToJSON R (scriptPubKey txout) [] true))]%string.

(** The block part of [TxToJSON]. *)
Definition block_entries (R : Render.env) (C : ChainState) (hashBlock : uint256)
    : list (string * UniValue) :=
  if negb (hashBlock =? 0)%N then
    [("blockhash", VSTR (Render.GetHex R hashBlock))]%string
    ++ match mapBlockIndex C !! hashBlock with
       | Some pindex =>
           if chainActive_Contains C pindex
           then [("confirmations", VNUM (1 + chainActive_Height C - bi_nHeight pindex));
                 ("time", VNUM (Render.GetBlockTime R pindex));
                 ("blocktime", VNUM (Render.GetBlockTime R pindex))]%string
           else [("confirmations", VNUM 0)]%string
       | None => []
       end
  else [].

(** [TxToJSON]: the entries pushed to [entry]. *)
Definition TxToJSON (R : Render.env) (C : ChainState) (tx : CTransaction)
    (hashBlock : uint256) (entry : list (string * UniValue)) : list (string * UniValue) :=
  entry
  ++ [("txid", VSTR (Render.GetHex R (Render.GetHash R tx)));
      ("hash", VSTR (Render.GetHex R (Render.GetWitnessHash R tx)));
      ("size", VNUM (Render.GetSerializeSize R tx));
      ("vsize", VNUM (Render.GetVirtualTransactionSize R tx));
      ("version", VNUM (nVersion tx));
      ("locktime", VNUM (Z.of_N (nLockTime tx)));
      ("vin", VARR (imap (txin_entry R tx) (vin tx)));
      ("vout", VARR (imap (txout_entry R) (vout tx)))]%string
  ++ block_entries R C hashBlock.

(** The spent-index entries of an input of [TxToJSONExpanded]. *)
Definition spent_input_entries (R : Render.env) (txin : CTxIn) : list (string * UniValue) :=
  match Render.GetSpentIndex R (op_hash (prevout txin)) (op_n (prevout txin)) with
  | Some spentInfo =>
      [("value", Render.ValueFromAmount R (sp_satoshis spentInfo));
       ("valueSat", VNUM (sp_satoshis spentInfo))]%string
      ++ (if sp_addressType spentInfo =? 1
          then [("address",
                 VSTR (Render.AddressToString R (CKeyID (sp_addressHash spentInfo))))]%string
          else if sp_addressType spentInfo =? 2
          then [("address",
                 VSTR (Render.AddressToString R (CScriptID (sp_addressHash spentInfo))))]%string
          else [])
  | None => []
  end.

Definition txin_entry_expanded (R : Render.env) (tx : CTransaction) (i : nat)
    (txin : CTxIn) : UniValue :=
  VOBJ
    ((if Render.IsCoinBase R tx
      then [("coinbase", VSTR (Render.HexStr R (scriptSig txin)))]%string
      else [("txid", VSTR (Render.GetHex R (op_hash (prevout txin))));
            ("vout", VNUM (Z.of_N (op_n (prevout txin))));
            ("scriptSig",
             VOBJ [("asm", VSTR (Render.ScriptToAsmStr R (scriptSig txin) true));
                   ("hex", VSTR (Render.HexStr R (scriptSig txin)))])]%string
           ++ spent_input_entries R txin)
     ++ txinwitness_entries R tx i
     ++ [("sequence", VNUM (Z.of_N (nSequence txin)))]%string).

Definition txout_entry_expanded (R : Render.env) (txid : uint256) (i : nat)
    (txout : CTxOut) : UniValue :=
  VOBJ
    ([("value", Render.ValueFromAmount R (nValue txout));
      ("ValueSat", VNUM (nValue txout));
      ("n", VNUM (Z.of_nat i));
      ("scriptPubKey", VOBJ (ScriptPubKeyToJSON R (scriptPubKey txout) [] true))]%string
     ++ match Render.GetSpentIndex R txid (N.of_nat i) with
        | Some spentInfo =>
            [("spentTxId", VSTR (Render.GetHex R (sp_txid spentInfo)));
             ("spentIndex", VNUM (sp_inputIndex spentInfo));
             ("spentHeight", VNUM (sp_blockHeight spentInfo))]%string
        | None => []
        end).

(** The block part of [TxToJSONExpanded] (lines 140-152); the entry named
    blockhash carries [nHeight]. *)
Definition block_entries_expanded (hashBlock : uint256)
    (nHeight nConfirmations nBlockTime : Z) : list (string * UniValue) :=
  if negb (hashBlock =? 0)%N then
    [("blockhash", VNUM nHeight)]%string
    ++ (if 0 <? nConfirmations
        then [("height", VNUM nHeight);
              ("confirmations", VNUM nConfirmations);
              ("time", VNUM nBlockTime);
              ("blocktime", VNUM nBlockTime)]%string
        else [("height", VNUM (-1)); ("confirmations", VNUM 0)]%string)
  else [].

Definition TxToJSONExpanded (R : Render.env) (tx : CTransaction) (hashBlock : uint256)
    (entry : list (string * UniValue)) (nHeight nConfirmations nBlockTime : Z)
    : list (string * UniValue) :=
  let txid := Render.GetHash R tx in
  entry
  ++ [("txid", VSTR (Render.GetHex R txid));
      ("hash", VSTR (Render.GetHex R (Render.GetWitnessHash R tx)));
      ("size", VNUM (Render.GetSerializeSize R tx));
      ("vsize", VNUM (Render.GetVirtualTransactionSize R tx));
      ("version", VNUM (nVersion tx));
      ("locktime", VNUM (Z.of_N (nLockTime tx)));
      ("vin", VARR (imap (txin_entry_expanded R tx) (vin tx)));
      ("vout", VARR (imap (txout_entry_expanded R txid) (vout tx)))]%string
  ++ block_entries_expanded hashBlock nHeight nConfirmations nBlockTime.

(** ** getrawtransaction *)

(** An [int64_t] stored into an [int]. *)
Definition to_int (z : Z) : Z := (z + 2 ^ 31) mod 2 ^ 32 - 2 ^ 31.

(** Lines 303-324: [(nHeight, nConfirmations, nBlockTime)]. *)
Definition block_position (R : Render.env) (C : ChainState) (hashBlock : uint256)
    : Z * Z * Z :=
  match mapBlockIndex C !! hashBlock with
  | Some pindex =>
      if chainActive_Contains C pindex
      then (bi_nHeight pindex,
            1 + chainActive_Height C - bi_nHeight pindex,
            to_int (Render.GetBlockTime R pindex))
      else (-1, 0, to_int (Render.GetBlockTime R pindex))
  | None => (0, 0, 0)
  end.

(** [lookup] is [GetTransaction] with [fAllowSlow] set; [verbose] is
    [params[1]] when given. *)
Definition getrawtransaction (R : Render.env) (C : ChainState)
    (lookup : uint256 -> option (CTransaction * uint256))
    (hash : uint256) (verbose : option Z) : rpc UniValue :=
  let fVerbose := match verbose with Some v => negb (v =? 0) | None => false end in
  match lookup hash with
  | None =>
      Throw RPC_INVALID_ADDRESS_OR_KEY "No information available about transaction"
  | Some (tx, hashBlock) =>
      let '(nHeight, nConfirmations, nBlockTime) := block_position R C hashBlock in
      let strHex := Render.EncodeHexTx R tx in
      if negb fVerbose then Return (VSTR strHex)
      else
        Return (VOBJ (TxToJSONExpanded R tx hashBlock [("hex", VSTR strHex)]%string
                        nHeight nConfirmations nBlockTime))
  end.

(** ** decoderawtransaction and decodescript *)

Definition decoderawtransaction (R : Render.env) (C : ChainState) (hexstring : string)
    : rpc UniValue :=
  match Render.DecodeHexTx R hexstring with
  | None => Throw RPC_DESERIALIZATION_ERROR "TX decode failed"
  | Some tx => Return (VOBJ (TxToJSON R C tx 0%N []))
  end.

Definition decodescript (R : Render.env) (hexstring : string) : rpc UniValue :=
  script ←
    (if (0 <? String.length hexstring)%nat
     then Render.ParseHexV R hexstring
     else Return []);
  let r := ScriptPubKeyToJSON R script [] false in
  match find_value r "type" with
  | VSTR type =>
      if negb (String.eqb type "scripthash")
      then Return (VOBJ (r ++ [("p2sh",
                                VSTR (Render.AddressToString R
                                        (CScriptID (Render.Hash160 R script))))]%string))
      else Return (VOBJ r)
  | _ => Return (VOBJ r)
  end.

(** ** createrawtransaction *)

Module Create.
(** Address decoding, amounts and script building ([base58.h],
    [rpc/server.h], [script/standard.h]).  [DecodeAddress] is [None] for a
    string that is not a valid address. *)
Record env : Type :=
  { CURRENT_VERSION : Z;
    DecodeAddress : string -> option CTxDestination;
    GetScriptForDestination : CTxDestination -> CScript;
    AmountFromValue : UniValue -> rpc CAmount;
    ParseHexV_Data : UniValue -> rpc (list Byte.byte);
    OP_RETURN_script : list Byte.byte -> CScript;
    EncodeHexTx : CMutableTransaction -> string }.

(** One element of the first argument: the parsed [txid], and what
    [find_value] gives for [vout] and [sequence]. *)
Record input : Type :=
  { txid : uint256; vout_v : UniValue; sequenceObj : UniValue }.
End Create.

Definition uint32_max : Z := 4294967295.

(** [UniValue::get_int] and [UniValue::get_int64] on a number (lines 502,
    517 and 526): the value when it fits the C++ type [int], respectively
    [int64_t]; otherwise the accessor throws the [std::runtime_error]
    "JSON integer out of range". *)
Definition int_min : Z := -2147483648.
Definition int_max : Z := 2147483647.
Definition int64_min : Z := -9223372036854775808.
Definition int64_max : Z := 9223372036854775807.

Definition get_int (v : Z) : rpc Z :=
  if (int_min <=? v) && (v <=? int_max)
  then Return v
  else Throw RPC_MISC_ERROR "JSON integer out of range".

Definition get_int64 (v : Z) : rpc Z :=
  if (int64_min <=? v) && (v <=? int64_max)
  then Return v
  else Throw RPC_MISC_ERROR "JSON integer out of range".

(** Lines 501-506: [rawTx.nLockTime]. *)
Definition parse_locktime (locktime : option Z) : rpc N :=
  match locktime with
  | Some v =>
      nLockTime ← get_int64 v;
      if (nLockTime <? 0) || (uint32_max <? nLockTime)
      then Throw RPC_INVALID_PARAMETER "Invalid parameter, locktime out of range"
      else Return (Z.to_N nLockTime)
  | None => Return 0%N
  end.

(** The body of the loop over [inputs] (lines 508-536). *)
Definition make_input (nLockTime : N) (o : Create.input) : rpc CTxIn :=
  match Create.vout_v o with
  | VNUM v =>
      nOutput ← get_int v;
      if nOutput <? 0
      then Throw RPC_INVALID_PARAMETER "Invalid parameter, vout must be positive"
      else
        let nSequence :=
          if negb (nLockTime =? 0)%N then uint32_max - 1 else uint32_max in
        nSequence ←
          match Create.sequenceObj o with
          | VNUM v64 =>
              seqNr64 ← get_int64 v64;
              if (seqNr64 <? 0) || (uint32_max <? seqNr64)
              then Throw RPC_INVALID_PARAMETER
                     "Invalid parameter, sequence number is out of range"
              else Return seqNr64
          | _ => Return nSequence
          end;
        Return {| prevout := {| op_hash := Create.txid o; op_n := Z.to_N nOutput |};
                  scriptSig := [];
                  nSequence := Z.to_N nSequence |}
  | _ => Throw RPC_INVALID_PARAMETER "Invalid parameter, missing vout key"
  end.

Fixpoint make_inputs (nLockTime : N) (inputs : list Create.input) (vin : list CTxIn)
    : rpc (list CTxIn) :=
  match inputs with
  | [] => Return vin
  | o :: rest =>
      txin ← make_input nLockTime o;
      make_inputs nLockTime rest (vin ++ [txin])
  end.

(** The loop over the keys of [sendTo] (lines 538-562), on the state
    [(setAddress, rawTx.vout)]. *)
Fixpoint make_outputs (E : Create.env) (sendTo : list (string * UniValue))
    (addrList : list string) (st : list CTxDestination * list CTxOut)
    : rpc (list CTxOut) :=
  match addrList with
  | [] => Return st.2
  | name_ :: rest =>
      if String.eqb name_ "data" then
        data ← Create.ParseHexV_Data E (find_value sendTo name_);
        make_outputs E sendTo rest
          (st.1, st.2 ++ [ {| nValue := 0; scriptPubKey := Create.OP_RETURN_script E data |} ])
      else
        match Create.DecodeAddress E name_ with
        | None =>
            Throw RPC_INVALID_ADDRESS_OR_KEY (String.append "Invalid MIL address: " name_)
        | Some address =>
            if bool_decide (address ∈ st.1)
            then Throw RPC_INVALID_PARAMETER
                   (String.append "Invalid parameter, duplicated address: " name_)
            else
              nAmount ← Create.AmountFromValue E (find_value sendTo name_);
              make_outputs E sendTo rest
                (address :: st.1,
                 st.2 ++ [ {| nValue := nAmount;
                              scriptPubKey := Create.GetScriptForDestination E address |} ])
        end
  end.

(** Lines 492-562: the transaction that is then encoded.  [inputs] and
    [sendTo] are [None] when the argument is null. *)
Definition build_rawtx (E : Create.env) (inputs : option (list Create.input))
    (sendTo : option (list (string * UniValue))) (locktime : option Z)
    : rpc CMutableTransaction :=
  match inputs, sendTo with
  | Some inputs, Some sendTo =>
      nLockTime ← parse_locktime locktime;
      vin ← make_inputs nLockTime inputs [];
      vout ← make_outputs E sendTo sendTo.*1 ([], []);
      Return {| nVersion := Create.CURRENT_VERSION E;
                vin := vin;
                vout := vout;
                wit_vtxinwit := [];
                nLockTime := nLockTime |}
  | _, _ =>
      Throw RPC_INVALID_PARAMETER "Invalid parameter, arguments 1 and 2 must be non-null"
  end.

Definition createrawtransaction (E : Create.env) (inputs : option (list Create.input))
    (sendTo : option (list (string * UniValue))) (locktime : option Z) : rpc string :=
  rawTx ← build_rawtx E inputs sendTo locktime;
  Return (Create.EncodeHexTx E rawTx).

(** ** Notions used in the statements about the remaining calls *)

(** The sequence number [createrawtransaction] gives an input. *)
Definition expected_sequence (locktime : option Z) (o : Create.input) : Z :=
  match Create.sequenceObj o with
  | VNUM seqNr64 => seqNr64
  | _ => if default 0 locktime =? 0 then uint32_max else uint32_max - 1
  end.

(** The output [createrawtransaction] makes for the key [name_]. *)
Definition output_for (E : Create.env) (sendTo : list (string * UniValue))
    (name_ : string) (out : CTxOut) : Prop :=
  if String.eqb name_ "data"
  then exists data,
         Create.ParseHexV_Data E (find_value sendTo name_) = Return data
         /\ out = {| nValue := 0; scriptPubKey := Create.OP_RETURN_script E data |}
  else exists address nAmount,
         Create.DecodeAddress E name_ = Some address
         /\ Create.AmountFromValue E (find_value sendTo name_) = Return nAmount
         /\ out = {| nValue := nAmount;
                     scriptPubKey := Create.GetScriptForDestination E address |}.

(** The addresses named by the keys that are not [data]; a key that is not
    a valid address counts as no destination. *)
Definition named_addresses (E : Create.env) (addrList : list string)
    : list CTxDestination :=
  (fun name_ => default CNoDestination (Create.DecodeAddress E name_))
    <$> filter (fun name_ => String.eqb name_ "data" = false) addrList.

(** The same rendering environment with another hex parser. *)
Definition with_ParseHexV (parse : string -> rpc (list Byte.byte)) (R : Render.env)
    : Render.env :=
  {| Render.GetHex := Render.GetHex R;
     Render.HexStr := Render.HexStr R;
     Render.ScriptToAsmStr := Render.ScriptToAsmStr R;
     Render.ExtractDestinations := Render.ExtractDestinations R;
     Render.GetTxnOutputType := Render.GetTxnOutputType R;
     Render.AddressToString := Render.AddressToString R;
     Render.Hash160 := Render.Hash160 R;
     Render.ValueFromAmount := Render.ValueFromAmount R;
     Render.GetHash := Render.GetHash R;
     Render.GetWitnessHash := Render.GetWitnessHash R;
     Render.GetSerializeSize := Render.GetSerializeSize R;
     Render.GetVirtualTransactionSize := Render.GetVirtualTransactionSize R;
     Render.IsCoinBase := Render.IsCoinBase R;
     Render.wit_IsNull := Render.wit_IsNull R;
     Render.txinwit_IsNull := Render.txinwit_IsNull R;
     Render.GetSpentIndex := Render.GetSpentIndex R;
     Render.GetBlockTime := Render.GetBlockTime R;
     Render.EncodeHexTx := Render.EncodeHexTx R;
     Render.DecodeHexTx := Render.DecodeHexTx R;
     Render.ParseHexV := parse |}.

(** The same node with another wallet, locked or not. *)
Definition with_wallet (wallet : option KeyStore) (unlocked : rpc unit) (E : SignEnv)
    : SignEnv :=
  {| viewMempool_GetCoins := viewMempool_GetCoins E;
     SetString := SetString E;
     key_IsValid := key_IsValid E;
     pwalletMain := wallet;
     EnsureWalletIsUnlocked := unlocked;
     RPCTypeCheckObj_redeemScript := RPCTypeCheckObj_redeemScript E;
     EncodeHexTx := EncodeHexTx E |}.

(** The selectors [signrawtransaction] knows. *)
Definition sighash_names : list string :=
  ["ALL"; "ALL|ANYONECANPAY"; "NONE"; "NONE|ANYONECANPAY";
   "SINGLE"; "SINGLE|ANYONECANPAY"]%string.

Definition is_accept (e : Event) : bool :=
  match e with EvAcceptToMemoryPool _ _ => true | EvRelayTransaction _ => false end.

(** [msg] is the text of an error the script verifier reported. *)
Definition verification_failure (S : ScriptEngine) (msg : string) : Prop :=
  exists sig prevPubKey witness txConst i amount serror,
    VerifyScript S sig prevPubKey witness (STANDARD_SCRIPT_VERIFY_FLAGS S)
      txConst i amount = (false, serror)
    /\ msg = ScriptErrorString S serror.

(** The output a declaration of [prevtxs] stands for. *)
Definition declared_output (p : PrevOut) : CTxOut :=
  {| nValue := default 0 (p_amount p); scriptPubKey := p_scriptPubKey p |}.

(** ** Sample nodes and requests

    Concrete collaborators on which the statements below are exercised.
    In the samples a transaction is identified by its version field. *)

Module Sample.

Definition is_hex_digit (c : ascii) : bool :=
  let n := nat_of_ascii c in
  ((48 <=? n) && (n <=? 57) || (97 <=? n) && (n <=? 102)
   || (65 <=? n) && (n <=? 70))%nat.

Definition parsers : HexParsers :=
  {| IsHex := fun s =>
       forallb is_hex_digit (list_ascii_of_string s)
       && negb (Nat.eqb (String.length s) 0)
       && Nat.even (String.length s);
     uint256S := fun s => HexString.Raw.to_N s 0%N |}.

Definition txid_1 : string :=
  "0000000000000000000000000000000000000000000000000000000000000001".
Definition txid_2 : string :=
  "0000000000000000000000000000000000000000000000000000000000000002".
Definition txid_3 : string :=
  "0000000000000000000000000000000000000000000000000000000000000003".
Definition blockhash_7 : string :=
  "0000000000000000000000000000000000000000000000000000000000000007".

Definition tx_with_id (id : Z) : CMutableTransaction :=
  {| nVersion := id; vin := []; vout := []; wit_vtxinwit := []; nLockTime := 0%N |}.

Definition index_7 : CBlockIndex := {| bi_hash := 7%N; bi_nHeight := 1 |}.

Definition header_7 : CBlockHeader := {| hashMerkleRoot := 42%N; header_hash := 7%N |}.

(** A block holding the transactions 1 and 2. *)
Definition block_7 : CBlock :=
  {| block_header := header_7; vtx := [tx_with_id 1; tx_with_id 2] |}.

(** The active chain holds the block 7 only. *)
Definition chain : ChainState :=
  {| mapBlockIndex := {[ 7%N := index_7 ]};
     chainActive_Height := 1;
     chainActive_at := fun h => if h =? 1 then Some index_7 else None;
     chainActive_Contains := fun p => (bi_hash p =? 7)%N;
     pcoinsTip_GetCoins := fun _ => None;
     GetTransaction := fun _ => None;
     ReadBlockFromDisk := fun p => if (bi_hash p =? 7)%N then Some block_7 else None;
     GetHash := fun tx => Z.to_N (nVersion tx);
     MerkleBlockHex := fun _ _ => "00"%string |}.

(** A block that lists the transaction 1 twice, and the chain state of a
    node that reads it for the index entry 7. *)
Definition block_repeated : CBlock :=
  {| block_header := header_7; vtx := [tx_with_id 1; tx_with_id 1] |}.

Definition chain_repeated : ChainState :=
  {| mapBlockIndex := mapBlockIndex chain;
     chainActive_Height := chainActive_Height chain;
     chainActive_at := chainActive_at chain;
     chainActive_Contains := chainActive_Contains chain;
     pcoinsTip_GetCoins := pcoinsTip_GetCoins chain;
     GetTransaction := GetTransaction chain;
     ReadBlockFromDisk := fun p =>
       if (bi_hash p =? 7)%N then Some block_repeated else None;
     GetHash := GetHash chain;
     MerkleBlockHex := MerkleBlockHex chain |}.

(** A codec whose extraction recomputes the root 42 and matches the
    transaction 1 at position 0, whatever the tree. *)
Definition codec : MerkleCodec :=
  {| ExtractMatches := fun _ => (42%N, [1%N], [0%N]);
     GetHex := fun h => HexString.of_N h |}.

Definition tree : CPartialMerkleTree :=
  {| nTransactions := 2%N; vBits := [true; true; false]; vHash := [1%N; 2%N] |}.

(** A proof for a header the node has never seen. *)
Definition proof_unknown_header : CMerkleBlock :=
  {| header := {| hashMerkleRoot := 42%N; header_hash := 9%N |}; txn := tree |}.

Definition coins_at (h : Z) : CCoins := {| coins_vout := []; coins_nHeight := h |}.

Definition accept_all (tx : CTransaction) (fee : CAmount)
    : bool * CValidationState * bool :=
  (true, {| IsInvalid := false; GetRejectCode := 0; GetRejectReason := EmptyString |}, false).

(** The transaction 5 is pending and has no confirmed coins. *)
Definition pool_pending : PoolState :=
  {| mempool_exists := fun h => (h =? 5)%N;
     pcoinsTip_AccessCoins := fun _ => None;
     maxTxFee := 10000000;
     AcceptToMemoryPool := accept_all;
     tx_GetHash := fun tx => Z.to_N (nVersion tx);
     hash_GetHex := fun h => HexString.of_N h |}.

(** The transaction 5 is pending, and the coin view has coins of a
    transaction 5 confirmed at height 100. *)
Definition pool_pending_and_confirmed : PoolState :=
  {| mempool_exists := fun h => (h =? 5)%N;
     pcoinsTip_AccessCoins := fun h => if (h =? 5)%N then Some (coins_at 100) else None;
     maxTxFee := 10000000;
     AcceptToMemoryPool := accept_all;
     tx_GetHash := fun tx => Z.to_N (nVersion tx);
     hash_GetHex := fun h => HexString.of_N h |}.

(** A toy script engine: a locking script names the key that unlocks it,
    and the signature made with a key is the key itself. *)
Definition sig_of (sd : CScript) : SignatureData :=
  {| sd_scriptSig := sd; sd_scriptWitness := {| stack := [] |} |}.

Definition engine : ScriptEngine :=
  {| SIGHASH_ALL := 1;
     SIGHASH_NONE := 2;
     SIGHASH_SINGLE := 3;
     SIGHASH_ANYONECANPAY := 128;
     STANDARD_SCRIPT_VERIFY_FLAGS := 0%N;
     ProduceSignature := fun ks _ _ _ _ prevPubKey =>
       if bool_decide (prevPubKey ∈ ks_keys ks) then sig_of prevPubKey else sig_of [];
     CombineSignatures := fun _ _ _ _ sigs1 sigs2 =>
       match sd_scriptSig sigs1 with [] => sigs2 | _ => sigs1 end;
     DataFromTransaction := fun tx nIn =>
       {| sd_scriptSig := default [] (scriptSig <$> vin tx !! nIn);
          sd_scriptWitness := witness_at tx nIn |};
     VerifyScript := fun sig prevPubKey _ _ _ _ _ =>
       if bool_decide (sig = prevPubKey) then (true, 0%N) else (false, 1%N);
     ScriptErrorString := fun _ => "Script evaluated without error but finished with a false/empty top stack element"%string;
     ScriptToAsmStr := fun _ => "script"%string;
     IsPayToScriptHash := fun _ => false;
     IsPayToWitnessScriptHash := fun _ => false |}.

(** The chain-plus-pool view knows the transaction 11, with two unspent
    outputs locked to the keys A and B. *)
Definition coins_11 : CCoins :=
  {| coins_vout := [ {| nValue := 50; scriptPubKey := [Byte.x41] |};
                     {| nValue := 60; scriptPubKey := [Byte.x42] |} ];
     coins_nHeight := 7 |}.

Definition node : SignEnv :=
  {| viewMempool_GetCoins := fun h => if (h =? 11)%N then Some coins_11 else None;
     SetString := fun s => Some (list_byte_of_string s);
     key_IsValid := fun _ => true;
     pwalletMain := None;
     EnsureWalletIsUnlocked := Return ();
     RPCTypeCheckObj_redeemScript := fun _ => Return ();
     EncodeHexTx := fun _ => "00"%string |}.

Definition input (h : uint256) (n : N) : CTxIn :=
  {| prevout := {| op_hash := h; op_n := n |}; scriptSig := []; nSequence := 4294967295%N |}.

(** Three inputs, one output: the input 1 spends an unknown coin, the inputs
    1 and 2 have no output of their index. *)
Definition spend : CMutableTransaction :=
  {| nVersion := 1;
     vin := [input 11%N 0%N; input 12%N 0%N; input 11%N 1%N];
     vout := [ {| nValue := 100; scriptPubKey := [Byte.x43] |} ];
     wit_vtxinwit := [];
     nLockTime := 0%N |}.

(** Sign [spend] with the key A. *)
Definition request : SignRequest :=
  {| req_txVariants := Some [spend];
     req_prevTxs := None;
     req_privatekeys := Some ["A"%string];
     req_sighashtype := None |}.

Definition declaration (h : uint256) (n : Z) (script : CScript) : PrevOut :=
  {| p_txid := h; p_vout := n; p_scriptPubKey := script;
     p_redeemScript := None; p_amount := None |}.

(** The second declaration gives the known output (11, 0) another script. *)
Definition request_conflict : SignRequest :=
  {| req_txVariants := Some [spend];
     req_prevTxs := Some [Some (declaration 12%N 0 [Byte.x43]);
                          Some (declaration 11%N 0 [Byte.x44])];
     req_privatekeys := Some ["A"%string];
     req_sighashtype := None |}.

(** What the signing call makes of [request]. *)
Definition finalized : CMutableTransaction * list TxInError :=
  Eval vm_compute in
    match sign_engine engine node request with
    | Return signed => signed
    | Throw _ _ => (spend, [])
    end.

Definition signed : SignResult :=
  Eval vm_compute in
    match signrawtransaction engine node request with
    | Return r => r
    | Throw _ _ => {| res_hex := EmptyString; res_complete := false; res_errors := None |}
    end.

(** The coin view of the signing loop for [spend]. *)
Definition view : gmap uint256 CCoins :=
  fetch_inputs (viewMempool_GetCoins node) spend.

Definition not_found_record : TxInError :=
  {| err_txid := 12%N; err_vout := 0%N; err_scriptSig := [];
     err_sequence := 4294967295%N;
     err_error := "Input not found or already spent" |}.

(** A 2-of-3 multisig in the combination model: keys 1, 2, 3, and the
    signature 100 + k is the one that checks against the key k. *)
Definition multisig_keys : list N := [1; 2; 3]%N.

Definition multisig_check (s k : N) : bool := (s =? 100 + k)%N.

End Sample.

(** ** Samples for the remaining calls *)

Module SampleMore.

(** A toy rendering: a script with bytes pays to the key 1, the empty
    script has no destination; the type 3 is scripthash. *)
Definition render : Render.env :=
  {| Render.GetHex := HexString.of_N;
     Render.HexStr := fun bytes => HexString.of_nat (length bytes);
     Render.ScriptToAsmStr := fun _ _ => "asm"%string;
     Render.ExtractDestinations := fun script =>
       match script with
       | [] => (false, 0%N, [], 0)
       | _ => (true, 2%N, [CKeyID 1], 1)
       end;
     Render.GetTxnOutputType := fun t =>
       if (t =? 3)%N then "scripthash"%string
       else if (t =? 2)%N then "pubkeyhash"%string else "nonstandard"%string;
     Render.AddressToString := fun d =>
       match d with
       | CNoDestination => EmptyString
       | CKeyID h => String.append "key" (HexString.of_N h)
       | CScriptID h => String.append "script" (HexString.of_N h)
       end;
     Render.Hash160 := fun script => N.of_nat (length script);
     Render.ValueFromAmount := VNUM;
     Render.GetHash := fun tx => Z.to_N (nVersion tx);
     Render.GetWitnessHash := fun tx => Z.to_N (nVersion tx);
     Render.GetSerializeSize := fun tx => 10 + Z.of_nat (length (vin tx));
     Render.GetVirtualTransactionSize := fun tx => 10 + Z.of_nat (length (vin tx));
     Render.IsCoinBase := fun _ => false;
     Render.wit_IsNull := forallb witness_IsNull;
     Render.txinwit_IsNull := witness_IsNull;
     Render.GetSpentIndex := fun _ _ => None;
     Render.GetBlockTime := fun _ => 1500000000;
     Render.EncodeHexTx := fun tx => HexString.of_Z (nVersion tx);
     Render.DecodeHexTx := fun s =>
       if String.eqb s "01" then Some Sample.spend else None;
     Render.ParseHexV := fun s =>
       if IsHex Sample.parsers s
       then Return (repeat Byte.x00 (String.length s / 2))
       else Throw RPC_INVALID_PARAMETER "argument must be hexadecimal string" |}.

(** The transaction index: 21 is in the block 7, 22 in a block 8 the node
    does not have on its chain, 23 in no block. *)
Definition tx_lookup (h : uint256) : option (CTransaction * uint256) :=
  if (h =? 21)%N then Some (Sample.tx_with_id 21, 7%N)
  else if (h =? 22)%N then Some (Sample.tx_with_id 22, 8%N)
  else if (h =? 23)%N then Some (Sample.tx_with_id 23, 0%N)
  else None.

(** Addresses are the strings a1, a2 and A1, the last naming the same
    destination as a1. *)
Definition creator : Create.env :=
  {| Create.CURRENT_VERSION := 1;
     Create.DecodeAddress := fun s =>
       if String.eqb s "a1" then Some (CKeyID 1)
       else if String.eqb s "A1" then Some (CKeyID 1)
       else if String.eqb s "a2" then Some (CKeyID 2)
       else None;
     Create.GetScriptForDestination := fun d =>
       match d with
       | CKeyID 1 => [Byte.x41]
       | CKeyID _ => [Byte.x42]
       | _ => []
       end;
     Create.AmountFromValue := fun v =>
       match v with
       | VNUM n => if (0 <=? n) then Return n
                   else Throw RPC_TYPE_ERROR "Amount out of range"
       | _ => Throw RPC_TYPE_ERROR "Amount is not a number or string"
       end;
     Create.ParseHexV_Data := fun v =>
       match v with
       | VSTR s => Return (repeat Byte.x00 (String.length s / 2))
       | _ => Throw RPC_INVALID_PARAMETER "Data must be hexadecimal string"
       end;
     Create.OP_RETURN_script := fun data => Byte.x6a :: data;
     Create.EncodeHexTx := fun tx => HexString.of_Z (nVersion tx) |}.

Definition inputs : list Create.input :=
  [ {| Create.txid := 11%N; Create.vout_v := VNUM 0; Create.sequenceObj := VNULL |};
    {| Create.txid := 12%N; Create.vout_v := VNUM 3; Create.sequenceObj := VNUM 5 |} ].

(** An input whose output index is one past the largest [int]. *)
Definition input_past_int : Create.input :=
  {| Create.txid := 13%N; Create.vout_v := VNUM 2147483648; Create.sequenceObj := VNULL |}.

Definition sendTo : list (string * UniValue) :=
  [("a1", VNUM 100); ("data", VSTR "0001"); ("a2", VNUM 50)]%string.

Definition sendTo_duplicate : list (string * UniValue) :=
  [("a1", VNUM 100); ("A1", VNUM 50)]%string.

(** The transaction built for [inputs], [sendTo] and the lock time 500. *)
Definition created : CMutableTransaction :=
  Eval vm_compute in
    match build_rawtx creator (Some inputs) (Some sendTo) (Some 500) with
    | Return tx => tx
    | Throw _ _ => Sample.spend
    end.

(** A proof for the header of the block 7. *)
Definition proof_known_header : CMerkleBlock :=
  {| header := Sample.header_7; txn := Sample.tree |}.

End SampleMore.

(** * Properties *)

(** ** gettxoutproof *)

Section GetTxOutProof.
Variable P : HexParsers.

Lemma parse_txids_throw_code txids acc code msg :
  parse_txids P txids acc = Throw code msg -> code = RPC_INVALID_PARAMETER.
Proof.
  revert acc. induction txids as [|txid rest IH]; intros acc; simpl.
  - discriminate.
  - destruct (negb _ || negb _); [congruence|].
    destruct (decide _); [congruence|]. apply IH.
Qed.

(** A successful parse has seen pairwise distinct ids, none of them in
    the set it started from, and returns them all. *)
Lemma parse_txids_return txids acc parsed :
  parse_txids P txids acc = Return parsed ->
  NoDup (uint256S P <$> txids)
  /\ (forall h, h ∈ (uint256S P <$> txids) -> h ∉ acc.1)
  /\ parsed.1 = list_to_set (uint256S P <$> txids) ∪ acc.1.
Proof.
  revert acc. induction txids as [|txid rest IH]; intros acc; simpl.
  - intros [= <-]. split; [constructor|]. split; [|set_solver].
    intros h Hh. by apply elem_of_nil in Hh.
  - destruct (negb _ || negb _); [discriminate|].
    destruct (decide _) as [|Hfresh]; [discriminate|].
    intros Hrest. destruct (IH _ Hrest) as (Hnd & Hacc & Hset). simpl in *.
    split; [|split].
    + constructor; [|done]. intros Hin. apply (Hacc _ Hin). set_solver.
    + intros h [->|Hin]%elem_of_cons; [done|].
      intros Hh. apply (Hacc _ Hin). set_solver.
    + rewrite Hset. set_solver.
Qed.

(** What the count of line 406 needs: the block transactions whose id
    was asked for have pairwise distinct ids. *)
Lemma ntxFound_lt C (setTxids : gset uint256) block h :
  NoDup (filter (.∈ setTxids) (GetHash C <$> vtx block)) ->
  h ∈ setTxids -> h ∉ (GetHash C <$> vtx block) ->
  (ntxFound C setTxids block < size setTxids)%nat.
Proof.
  intros Hnd Hin Hout. unfold ntxFound.
  set (found := filter (.∈ setTxids) (GetHash C <$> vtx block)) in *.
  assert (Hlen : length (filter (fun tx => GetHash C tx ∈ setTxids) (vtx block))
                 = length found).
  { unfold found. clear. induction (vtx block) as [|tx l IHl]; [done|].
    rewrite fmap_cons, !filter_cons. simpl.
    destruct (decide _); simpl; rewrite IHl; done. }
  rewrite Hlen.
  rewrite <- (size_list_to_set (C:=gset uint256) found Hnd).
  apply subset_size. split.
  - intros x Hx. apply elem_of_list_to_set in Hx.
    unfold found in Hx. by apply list_elem_of_filter in Hx as [? _].
  - intros Hsub. specialize (Hsub h Hin).
    apply elem_of_list_to_set in Hsub. unfold found in Hsub.
    by apply list_elem_of_filter in Hsub as [_ ?].
Qed.


(** C10.  A request whose list of transaction ids names the same id
    twice is rejected with RPC_INVALID_PARAMETER by the parsing loop:
    the error is the same for every chain state and optional block hash,
    so it is raised before any block data is looked at. *)
Theorem gettxoutproof_duplicate_txid txids :
  ~ NoDup (uint256S P <$> txids) ->
  exists msg,
    parse_txids P txids (∅, 0%N) = Throw RPC_INVALID_PARAMETER msg
    /\ forall C blockhash,
         gettxoutproof P C txids blockhash = Throw RPC_INVALID_PARAMETER msg.
Proof.
  intros Hdup.
  destruct (parse_txids P txids (∅, 0%N)) as [parsed|code msg] eqn:Hparse.
  - apply parse_txids_return in Hparse as [Hnd _]. contradiction.
  - pose proof (parse_txids_throw_code _ _ _ _ Hparse) as ->.
    exists msg. split; [done|]. intros C blockhash.
    unfold gettxoutproof. by rewrite Hparse.
Qed.
End GetTxOutProof.



Lemma gettxoutproof_duplicate_txid_witness :
  exists msg,
    parse_txids Sample.parsers [Sample.txid_1; Sample.txid_2; Sample.txid_1] (∅, 0%N)
    = Throw RPC_INVALID_PARAMETER msg
    /\ forall C blockhash,
         gettxoutproof Sample.parsers C
           [Sample.txid_1; Sample.txid_2; Sample.txid_1] blockhash
         = Throw RPC_INVALID_PARAMETER msg.
Proof.
  apply (gettxoutproof_duplicate_txid Sample.parsers
           [Sample.txid_1; Sample.txid_2; Sample.txid_1]).
  apply (bool_decide_unpack _). vm_compute. exact I.
Defined.

(** ** verifytxoutproof *)

(** C2, as the code has it.  A proof whose recomputed root equals the root
    claimed by its header, but whose header is not a block of the active
    chain (unknown to the block index, or indexed off the active chain),
    is rejected by an exception: RPC_INVALID_ADDRESS_OR_KEY, "Block not
    found in chain".  No matched id is returned. *)
Theorem verifytxoutproof_off_chain_throws M C merkleBlock :
  (ExtractMatches M (txn merkleBlock)).1.1 = hashMerkleRoot (header merkleBlock) ->
  block_in_chain C (header_hash (header merkleBlock)) = false ->
  verifytxoutproof M C merkleBlock
  = Throw RPC_INVALID_ADDRESS_OR_KEY "Block not found in chain".
Proof.
  intros Hroot Hchain. unfold verifytxoutproof.
  destruct (ExtractMatches M (txn merkleBlock)) as [[root vMatch] vIndex].
  simpl in Hroot. subst root. rewrite N.eqb_refl. simpl. by rewrite Hchain.
Qed.

Lemma verifytxoutproof_off_chain_throws_witness :
  verifytxoutproof Sample.codec Sample.chain Sample.proof_unknown_header
  = Throw RPC_INVALID_ADDRESS_OR_KEY "Block not found in chain".
Proof.
  apply (verifytxoutproof_off_chain_throws Sample.codec Sample.chain
           Sample.proof_unknown_header).
  - reflexivity.
  - vm_compute. reflexivity.
Defined.

(** C2, as stated, fails.  The sample proof recomputes to the root 42 that
    its header claims, the header 9 is unknown to the node, and the outcome
    is the exception, not the empty array that an invalid proof yields. *)
Lemma verifytxoutproof_off_chain_not_empty :
  (ExtractMatches Sample.codec (txn Sample.proof_unknown_header)).1.1
  = hashMerkleRoot (header Sample.proof_unknown_header)
  /\ block_in_chain Sample.chain (header_hash (header Sample.proof_unknown_header)) = false
  /\ verifytxoutproof Sample.codec Sample.chain Sample.proof_unknown_header
     <> Return [].
Proof.
  split; [reflexivity|]. split; [vm_compute; reflexivity|].
  vm_compute. discriminate.
Qed.

(** The empty array is what a root mismatch yields. *)
Lemma verifytxoutproof_root_mismatch M C merkleBlock :
  (ExtractMatches M (txn merkleBlock)).1.1 <> hashMerkleRoot (header merkleBlock) ->
  verifytxoutproof M C merkleBlock = Return [].
Proof.
  intros Hroot. unfold verifytxoutproof.
  destruct (ExtractMatches M (txn merkleBlock)) as [[root vMatch] vIndex].
  simpl in Hroot. by destruct (N.eqb_spec root (hashMerkleRoot (header merkleBlock))).
Qed.

(** ** sendrawtransaction *)

(** C1, as the code has it.  For a transaction whose id is in the pending
    pool the pool-validation capability is never called.  When the coin
    view has no confirmed coins under that id the call relays the
    transaction and returns its id; when it has, the call throws
    RPC_TRANSACTION_ALREADY_IN_CHAIN although the transaction is pending. *)
Theorem sendrawtransaction_pending S tx allowhighfees :
  mempool_exists S (tx_GetHash S tx) = true ->
  sendrawtransaction S (Some tx) allowhighfees
  = if fHaveChain (pcoinsTip_AccessCoins S (tx_GetHash S tx))
    then ([], Throw RPC_TRANSACTION_ALREADY_IN_CHAIN
                "transaction already in block chain")
    else ([EvRelayTransaction tx], Return (hash_GetHex S (tx_GetHash S tx))).
Proof.
  intros Hpool. unfold sendrawtransaction. rewrite Hpool. simpl.
  by destruct (fHaveChain _).
Qed.

Lemma sendrawtransaction_pending_witness :
  sendrawtransaction Sample.pool_pending (Some (Sample.tx_with_id 5)) None
  = ([EvRelayTransaction (Sample.tx_with_id 5)], Return "0x5"%string).
Proof.
  apply (sendrawtransaction_pending Sample.pool_pending (Sample.tx_with_id 5) None).
  reflexivity.
Defined.

(** C1, as stated, fails.  The transaction 5 is in the pending pool, the
    coin view has confirmed coins under the same id, and the submission is
    refused as already in chain instead of succeeding. *)
Lemma sendrawtransaction_pending_in_chain :
  mempool_exists Sample.pool_pending_and_confirmed
    (tx_GetHash Sample.pool_pending_and_confirmed (Sample.tx_with_id 5)) = true
  /\ sendrawtransaction Sample.pool_pending_and_confirmed
       (Some (Sample.tx_with_id 5)) None
     = ([], Throw RPC_TRANSACTION_ALREADY_IN_CHAIN
              "transaction already in block chain").
Proof. split; reflexivity. Qed.

(** The already-in-chain failure is raised exactly for the ids with
    confirmed coins, pending or not. *)
Lemma sendrawtransaction_in_chain_iff S tx allowhighfees :
  (exists trace msg,
     sendrawtransaction S (Some tx) allowhighfees
     = (trace, Throw RPC_TRANSACTION_ALREADY_IN_CHAIN msg))
  <-> fHaveChain (pcoinsTip_AccessCoins S (tx_GetHash S tx)) = true.
Proof.
  unfold sendrawtransaction.
  destruct (fHaveChain _).
  - rewrite andb_false_r. split; [done|]. intros _. by eexists _, _.
  - rewrite andb_true_r. split; [|done]. intros (trace & msg & Heq). revert Heq.
    destruct (mempool_exists S _); simpl; [intros [=]|].
    match goal with
    | |- context [AcceptToMemoryPool S tx ?fee] =>
        destruct (AcceptToMemoryPool S tx fee) as [[accepted state] missing]
    end.
    destruct accepted; simpl; [intros [=]|].
    destruct (IsInvalid state); [intros [=]|]. destruct missing; intros [=].
Qed.

(** ** signrawtransaction: the transaction keeps its structure *)

Lemma UpdateTransaction_outline tx nIn data :
  outline (UpdateTransaction tx nIn data) = outline tx.
Proof.
  unfold outline, UpdateTransaction. simpl. f_equal. f_equal. f_equal.
  apply list_eq. intros j. rewrite !list_lookup_fmap.
  destruct (decide (nIn = j)) as [->|Hne].
  - rewrite list_lookup_alter_eq. by destruct (vin tx !! j).
  - by rewrite list_lookup_alter_ne.
Qed.

Lemma outline_vin_length tx tx' :
  outline tx = outline tx' -> length (vin tx) = length (vin tx').
Proof.
  unfold outline. intros [= _ Hvin _ _].
  by rewrite <- (length_fmap (fun txin => (prevout txin, nSequence txin)) (vin tx)),
    Hvin, length_fmap.
Qed.

Lemma outline_vout tx tx' : outline tx = outline tx' -> vout tx = vout tx'.
Proof. unfold outline. by intros [= _ _ Hvout _]. Qed.

Lemma outline_lookup tx tx' i txin :
  outline tx = outline tx' -> vin tx !! i = Some txin ->
  exists txin', vin tx' !! i = Some txin'
    /\ prevout txin' = prevout txin /\ nSequence txin' = nSequence txin.
Proof.
  unfold outline. intros [= _ Hvin _ _] Hi.
  assert (Hl : ((fun txin => (prevout txin, nSequence txin)) <$> vin tx') !! i
               = Some (prevout txin, nSequence txin)).
  { rewrite <- Hvin, list_lookup_fmap, Hi. done. }
  rewrite list_lookup_fmap in Hl.
  destruct (vin tx' !! i) as [txin'|]; [|done].
  simpl in Hl. injection Hl as Hp Hs. by exists txin'.
Qed.

Section SignLoop.
Variable S : ScriptEngine.
Variable view : gmap uint256 CCoins.
Variable keystore : KeyStore.
Variable nHashType : Z.
Variable txVariants : list CMutableTransaction.
Variable txConst : CTransaction.

Local Abbreviation step := (sign_input S view keystore nHashType txVariants txConst).
Local Abbreviation range := (sign_range S view keystore nHashType txVariants txConst).

Lemma sign_input_outline i st : outline (step i st).1 = outline st.1.
Proof.
  destruct st as [mergedTx vErrors]. unfold sign_input.
  destruct (vin mergedTx !! i) as [txin|]; [|done].
  destruct (available_output view (prevout txin)) as [coin|]; [|done].
  simpl. destruct (VerifyScript _ _ _ _ _ _ _ _) as [ok serror].
  destruct ok; simpl; apply UpdateTransaction_outline.
Qed.

Lemma sign_range_snoc i k st : range i (Datatypes.S k) st = step (i + k) (range i k st).
Proof.
  unfold sign_range. rewrite seq_S, fold_left_app. done.
Qed.

Lemma sign_range_cons i k st : range i (Datatypes.S k) st = range (Datatypes.S i) k (step i st).
Proof. done. Qed.

Lemma sign_range_outline i k st : outline (range i k st).1 = outline st.1.
Proof.
  revert i st. induction k as [|k IH]; intros i st; [done|].
  rewrite sign_range_cons, IH. apply sign_input_outline.
Qed.

(** An iteration appends at most one record, and the record is about
    the input of that iteration. *)
Lemma sign_input_errors i st :
  (step i st).2 = st.2
  \/ exists e, (step i st).2 = st.2 ++ [e] /\ error_of_input st.1 i e.
Proof.
  destruct st as [mergedTx vErrors]. unfold sign_input.
  destruct (vin mergedTx !! i) as [txin|] eqn:Hi; [|by left].
  destruct (available_output view (prevout txin)) as [coin|].
  - simpl.
    set (tx' := UpdateTransaction mergedTx i _).
    destruct (VerifyScript _ _ _ _ _ _ _ _) as [ok serror].
    destruct ok; simpl; [by left|]. right. eexists. split; [done|].
    destruct (outline_lookup tx' mergedTx i
                (default txin (vin tx' !! i))) as (t & Ht & Hp & Hs).
    { apply UpdateTransaction_outline. }
    { destruct (outline_lookup mergedTx tx' i txin) as (t' & -> & _);
        [symmetry; apply UpdateTransaction_outline|done|done]. }
    exists t. simpl. rewrite Hp, Hs. done.
  - right. eexists. split; [done|]. by exists txin.
Qed.
Lemma sign_range_app i k1 k2 st :
  range i (k1 + k2) st = range (i + k1) k2 (range i k1 st).
Proof. unfold sign_range. by rewrite seq_app, fold_left_app. Qed.

Lemma sign_range_errors_prefix i k st :
  exists added, (range i k st).2 = st.2 ++ added.
Proof.
  revert i st. induction k as [|k IH]; intros i st.
  - exists []. by rewrite app_nil_r.
  - rewrite sign_range_cons. destruct (IH (Datatypes.S i) (step i st)) as [l ->].
    destruct (sign_input_errors i st) as [->|(e & -> & _)].
    + by exists l.
    + exists (e :: l). by rewrite <- app_assoc.
Qed.

(** The records come in input order. *)
Lemma sign_range_in_order tx0 k : forall i st idxs,
  outline st.1 = outline tx0 ->
  StronglySorted lt idxs ->
  Forall (fun j => (j < i)%nat) idxs ->
  Forall2 (error_of_input tx0) idxs st.2 ->
  exists idxs',
    StronglySorted lt idxs'
    /\ Forall (fun j => (j < i + k)%nat) idxs'
    /\ Forall2 (error_of_input tx0) idxs' (range i k st).2.
Proof.
  induction k as [|k IH]; intros i st idxs Hout Hsorted Hbound Herrs.
  - exists idxs. split; [done|]. split; [|done].
    eapply Forall_impl; [exact Hbound|]. intros j Hj. simpl in Hj. lia.
  - rewrite sign_range_cons.
    assert (Hout' : outline (step i st).1 = outline tx0)
      by (by rewrite sign_input_outline).
    destruct (sign_input_errors i st) as [Heq|(e & Heq & He)].
    + destruct (IH (Datatypes.S i) (step i st) idxs) as (idxs' & ? & Hb & ?); try done.
      * eapply Forall_impl; [exact Hbound|]. intros j Hj. simpl in Hj. lia.
      * by rewrite Heq.
      * exists idxs'. split; [done|]. split; [|done].
        eapply Forall_impl; [exact Hb|]. intros j Hj. simpl in Hj. lia.
    + destruct (IH (Datatypes.S i) (step i st) (idxs ++ [i])) as (idxs' & ? & Hb & ?);
        try done.
      * apply StronglySorted_app_2; [|done|repeat constructor].
        intros x1 x2 Hx1 ->%list_elem_of_singleton.
        by apply (proj1 (Forall_forall _ _) Hbound).
      * apply Forall_app. split.
        -- eapply Forall_impl; [exact Hbound|]. intros j Hj. simpl in Hj. lia.
        -- repeat constructor.
      * rewrite Heq. apply Forall2_app; [done|]. constructor; [|constructor].
        destruct He as (txin & Hi & Ht & Hv & Hs).
        destruct (outline_lookup st.1 tx0 i txin Hout Hi) as (t & Ht0 & Hp & Hseq).
        exists t. rewrite Hp, Hseq. done.
      * exists idxs'. split; [done|]. split; [|done].
        eapply Forall_impl; [exact Hb|]. intros j Hj. simpl in Hj. lia.
Qed.

(** An iteration leaves the other inputs as they are. *)
Lemma sign_input_other i j st :
  i <> j -> (i < length (vin st.1))%nat ->
  vin (step j st).1 !! i = vin st.1 !! i
  /\ witness_at (step j st).1 i = witness_at st.1 i.
Proof.
  intros Hne Hlen. destruct st as [mergedTx vErrors]. unfold sign_input.
  destruct (vin mergedTx !! j) as [txin|]; [|done].
  destruct (available_output view (prevout txin)) as [coin|]; [|done].
  simpl. set (sigdata := merge_variants _ _ _ _).
  assert (Hgoal : vin (UpdateTransaction mergedTx j sigdata) !! i = vin mergedTx !! i
                  /\ witness_at (UpdateTransaction mergedTx j sigdata) i
                     = witness_at mergedTx i).
  { split.
    - simpl. by rewrite list_lookup_alter_ne.
    - unfold witness_at, UpdateTransaction. simpl.
      destruct (negb _ || _); [|done].
      rewrite list_lookup_insert_ne by done.
      destruct (decide (i < length (wit_vtxinwit mergedTx))%nat) as [Hlt|Hge].
      + by rewrite lookup_resize.
      + rewrite lookup_resize_new by (simpl in Hlen; lia).
        by rewrite (lookup_ge_None_2 (wit_vtxinwit mergedTx) i) by lia. }
  destruct (VerifyScript _ _ _ _ _ _ _ _) as [ok serror].
  by destruct ok.
Qed.

Lemma sign_range_other i k : forall j st,
  (i < j \/ j + k <= i)%nat -> (i < length (vin st.1))%nat ->
  vin (range j k st).1 !! i = vin st.1 !! i
  /\ witness_at (range j k st).1 i = witness_at st.1 i.
Proof.
  induction k as [|k IH]; intros j st Hij Hlen; [done|].
  rewrite sign_range_cons.
  destruct (sign_input_other i j st) as [Hv Hw]; [lia|done|].
  destruct (IH (Datatypes.S j) (step j st)) as [Hv' Hw']; [lia| |].
  - by rewrite <- (outline_vin_length _ _ (sign_input_outline j st)) in Hlen.
  - by rewrite Hv', Hw'.
Qed.

(** The iteration of an input whose coin does not resolve. *)
Lemma sign_input_unavailable i mergedTx vErrors txin :
  vin mergedTx !! i = Some txin ->
  available_output view (prevout txin) = None ->
  step i (mergedTx, vErrors)
  = (mergedTx, TxInErrorToJSON txin vErrors "Input not found or already spent").
Proof. intros Hi Hcoin. unfold sign_input. by rewrite Hi, Hcoin. Qed.
End SignLoop.

Lemma sign_engine_inv S E req signed :
  sign_engine S E req = Return signed ->
  exists primary rest view keystore nHashType,
    req_txVariants req = Some (primary :: rest)
    /\ signed = sign_all S view keystore nHashType (primary :: rest) primary.
Proof.
  unfold sign_engine.
  destruct (req_txVariants req) as [[|primary rest]|]; try discriminate.
  destruct (keys_stage E (req_privatekeys req)) as [keys|]; [|discriminate].
  simpl.
  destruct (match req_prevTxs req with Some _ => _ | None => _ end)
    as [declared|]; [|discriminate].
  simpl. destruct (parse_sighash S (req_sighashtype req)) as [nHashType|];
    [|discriminate].
  simpl. intros [= <-]. by eexists _, _, _, _, _.
Qed.

(** C8.  The finalized transaction of a signing call has as many inputs
    and as many outputs as the primary transaction of the request; more
    than that, it has the same version, lock time, outputs, and the same
    outpoint and sequence number on every input: only unlocking scripts and
    witnesses differ. *)
Theorem sign_engine_keeps_structure S E req finalTx vErrors :
  sign_engine S E req = Return (finalTx, vErrors) ->
  exists primary rest,
    req_txVariants req = Some (primary :: rest)
    /\ length (vin finalTx) = length (vin primary)
    /\ length (vout finalTx) = length (vout primary)
    /\ outline finalTx = outline primary.
Proof.
  intros (primary & rest & view & keystore & nHashType & Hreq & Hsigned)%sign_engine_inv.
  exists primary, rest. split; [done|].
  assert (Hout : outline finalTx = outline primary).
  { change finalTx with (finalTx, vErrors).1. rewrite Hsigned.
    unfold sign_all. by rewrite sign_range_outline. }
  split; [by apply outline_vin_length|]. split; [|done].
  by rewrite (outline_vout _ _ Hout).
Qed.

Lemma sign_engine_keeps_structure_witness :
  exists primary rest,
    req_txVariants Sample.request = Some (primary :: rest)
    /\ length (vin Sample.finalized.1) = length (vin primary)
    /\ length (vout Sample.finalized.1) = length (vout primary)
    /\ outline Sample.finalized.1 = outline primary.
Proof.
  apply (sign_engine_keeps_structure Sample.engine Sample.node Sample.request
           Sample.finalized.1 Sample.finalized.2).
  vm_compute. reflexivity.
Defined.

(** C5.  When the signing call returns, its result carries the hex of the
    finalized transaction, the flag [complete] is true exactly when the
    list of error records is empty, a non-empty list is returned under
    [errors] (an empty one is left out), and the records are about inputs
    of increasing index: at most one per input, in input order. *)
Theorem signrawtransaction_complete_iff_no_errors S E req r :
  signrawtransaction S E req = Return r ->
  exists primary rest finalTx vErrors,
    req_txVariants req = Some (primary :: rest)
    /\ sign_engine S E req = Return (finalTx, vErrors)
    /\ res_hex r = EncodeHexTx E finalTx
    /\ (res_complete r = true <-> vErrors = [])
    /\ (vErrors <> [] -> res_errors r = Some vErrors)
    /\ (vErrors = [] -> res_errors r = None)
    /\ in_input_order primary vErrors.
Proof.
  unfold signrawtransaction.
  destruct (sign_engine S E req) as [[finalTx vErrors]|] eqn:Hengine; [|discriminate].
  simpl. intros [= <-]. simpl.
  destruct (sign_engine_inv _ _ _ _ Hengine)
    as (primary & rest & view & keystore & nHashType & Hreq & Hsigned).
  exists primary, rest, finalTx, vErrors. split; [done|]. split; [done|].
  split; [done|]. split; [by destruct vErrors|]. split; [by destruct vErrors|].
  split; [by intros ->|].
  destruct (sign_range_in_order S view keystore nHashType (primary :: rest) primary
              primary (length (vin primary)) 0%nat (primary, []) [])
    as (idxs & Hsorted & _ & Herrs); try done; try constructor.
  exists idxs. split; [done|].
  unfold sign_all in Hsigned. by rewrite <- Hsigned in Herrs.
Qed.

Lemma signrawtransaction_complete_iff_no_errors_witness :
  exists primary rest finalTx vErrors,
    req_txVariants Sample.request = Some (primary :: rest)
    /\ sign_engine Sample.engine Sample.node Sample.request = Return (finalTx, vErrors)
    /\ res_hex Sample.signed = EncodeHexTx Sample.node finalTx
    /\ (res_complete Sample.signed = true <-> vErrors = [])
    /\ (vErrors <> [] -> res_errors Sample.signed = Some vErrors)
    /\ (vErrors = [] -> res_errors Sample.signed = None)
    /\ in_input_order primary vErrors.
Proof.
  apply (signrawtransaction_complete_iff_no_errors Sample.engine Sample.node
           Sample.request Sample.signed).
  vm_compute. reflexivity.
Defined.

(** C6.  An input whose coin is absent from the view, or spent, gets the
    record "Input not found or already spent" (the source capitalises the
    reason).  Its iteration changes nothing in the transaction and calls
    neither the producer nor the verifier; the loop goes on with the next
    input; and in the finalized transaction the input still has the
    unlocking script and the witness it came with. *)
Theorem sign_input_not_found S view keystore nHashType txVariants mergedTx i txin :
  vin mergedTx !! i = Some txin ->
  available_output view (prevout txin) = None ->
  let record :=
    {| err_txid := op_hash (prevout txin);
       err_vout := op_n (prevout txin);
       err_scriptSig := scriptSig txin;
       err_sequence := nSequence txin;
       err_error := "Input not found or already spent" |} in
  (forall txConst vErrors,
     sign_input S view keystore nHashType txVariants txConst i (mergedTx, vErrors)
     = (mergedTx, vErrors ++ [record]))
  /\ (forall txConst vErrors k,
        sign_range S view keystore nHashType txVariants txConst i (Datatypes.S k)
          (mergedTx, vErrors)
        = sign_range S view keystore nHashType txVariants txConst (Datatypes.S i) k
            (mergedTx, vErrors ++ [record]))
  /\ (let final := sign_all S view keystore nHashType txVariants mergedTx in
      vin final.1 !! i = Some txin
      /\ witness_at final.1 i = witness_at mergedTx i
      /\ record ∈ final.2).
Proof.
  intros Hi Hcoin record.
  assert (Hstep : forall txConst tx vErrors,
            vin tx !! i = Some txin ->
            sign_input S view keystore nHashType txVariants txConst i (tx, vErrors)
            = (tx, vErrors ++ [record])).
  { intros txConst tx vErrors Htx. by apply sign_input_unavailable. }
  split; [intros; by apply Hstep|].
  split; [intros; by rewrite sign_range_cons, Hstep|].
  pose proof (lookup_lt_Some _ _ _ Hi) as Hlen.
  unfold sign_all.
  replace (length (vin mergedTx))
    with (i + Datatypes.S (length (vin mergedTx) - i - 1))%nat by lia.
  rewrite sign_range_app, sign_range_cons. simpl.
  set (before := sign_range _ _ _ _ _ _ 0 i _).
  destruct (sign_range_other S view keystore nHashType txVariants mergedTx
              i i 0%nat (mergedTx, [])) as [Hv Hw]; [lia|done|].
  fold before in Hv, Hw. simpl in Hv, Hw.
  destruct before as [tx errs] eqn:Hbefore. simpl in Hv, Hw.
  rewrite Hstep by (by rewrite Hv).
  assert (Hlen' : (i < length (vin tx))%nat).
  { apply lookup_lt_is_Some. rewrite Hv. by eexists. }
  destruct (sign_range_other S view keystore nHashType txVariants mergedTx
              i (length (vin mergedTx) - i - 1) (i + 1)%nat
              (tx, errs ++ [record])) as [Hv' Hw']; [lia|done|].
  simpl in Hv', Hw'.
  replace (Datatypes.S i) with (i + 1)%nat by lia.
  split; [by rewrite Hv', Hv|]. split; [by rewrite Hw', Hw|].
  destruct (sign_range_errors_prefix S view keystore nHashType txVariants mergedTx
              (i + 1) (length (vin mergedTx) - i - 1) (tx, errs ++ [record]))
    as [added ->].
  simpl. set_solver.
Qed.

Lemma sign_input_not_found_witness :
  (forall txConst vErrors,
     sign_input Sample.engine Sample.view KeyStore_empty 1 [Sample.spend] txConst 1
       (Sample.spend, vErrors)
     = (Sample.spend, vErrors ++ [Sample.not_found_record]))
  /\ (forall txConst vErrors k,
        sign_range Sample.engine Sample.view KeyStore_empty 1 [Sample.spend] txConst
          1 (Datatypes.S k) (Sample.spend, vErrors)
        = sign_range Sample.engine Sample.view KeyStore_empty 1 [Sample.spend] txConst
            2 k (Sample.spend, vErrors ++ [Sample.not_found_record]))
  /\ (let final :=
        sign_all Sample.engine Sample.view KeyStore_empty 1 [Sample.spend] Sample.spend in
      vin final.1 !! 1%nat = Some (Sample.input 12%N 0%N)
      /\ witness_at final.1 1 = witness_at Sample.spend 1
      /\ Sample.not_found_record ∈ final.2).
Proof.
  apply (sign_input_not_found Sample.engine Sample.view KeyStore_empty 1
           [Sample.spend] Sample.spend 1 (Sample.input 12%N 0%N)).
  - reflexivity.
  - vm_compute. reflexivity.
Defined.

(** ** signrawtransaction: SINGLE without a paired output *)

Lemma land_lnot_disjoint s a : Z.land s a = 0 -> Z.land s (Z.lnot a) = s.
Proof.
  intros Hdisj. apply Z.bits_inj'. intros n Hn.
  pose proof (f_equal (fun z => Z.testbit z n) Hdisj) as Hbit. simpl in Hbit.
  rewrite Z.land_spec, Z.bits_0 in Hbit.
  rewrite Z.land_spec, Z.lnot_spec by done.
  destruct (Z.testbit s n), (Z.testbit a n); done.
Qed.

Lemma land_lor_lnot_disjoint s a :
  Z.land s a = 0 -> Z.land (Z.lor s a) (Z.lnot a) = s.
Proof.
  intros Hdisj. apply Z.bits_inj'. intros n Hn.
  pose proof (f_equal (fun z => Z.testbit z n) Hdisj) as Hbit. simpl in Hbit.
  rewrite Z.land_spec, Z.bits_0 in Hbit.
  rewrite Z.land_spec, Z.lor_spec, Z.lnot_spec by done.
  destruct (Z.testbit s n), (Z.testbit a n); done.
Qed.

(** Both spellings of SINGLE set [fHashSingle], as soon as the modifier
    bit is not a bit of SINGLE. *)
Lemma fHashSingle_single S nHashType :
  Z.land (SIGHASH_SINGLE S) (SIGHASH_ANYONECANPAY S) = 0 ->
  nHashType = SIGHASH_SINGLE S
  \/ nHashType = Z.lor (SIGHASH_SINGLE S) (SIGHASH_ANYONECANPAY S) ->
  fHashSingle S nHashType = true.
Proof.
  intros Hdisj [-> | ->]; unfold fHashSingle.
  - rewrite land_lnot_disjoint by done. apply Z.eqb_refl.
  - rewrite land_lor_lnot_disjoint by done. apply Z.eqb_refl.
Qed.

(** C3.  With the sighash type SINGLE, with or without ANYONECANPAY, an
    input whose index has no output gets no signature from the production
    step: [sigdata] stays the empty solution, and the whole iteration (the
    transaction and the error records it leaves) is the same whatever the
    producer would have answered, so the step adds no record either.
    The modifier bit is assumed not to be a bit of SINGLE. *)
Theorem single_without_output_skips_production S keystore mergedTx i amount nHashType
    prevPubKey :
  Z.land (SIGHASH_SINGLE S) (SIGHASH_ANYONECANPAY S) = 0 ->
  nHashType = SIGHASH_SINGLE S
  \/ nHashType = Z.lor (SIGHASH_SINGLE S) (SIGHASH_ANYONECANPAY S) ->
  (length (vout mergedTx) <= i)%nat ->
  produce S keystore mergedTx i amount nHashType prevPubKey = SignatureData_empty
  /\ forall produce_fn view txVariants txConst vErrors,
       sign_input (with_producer produce_fn S) view keystore nHashType txVariants
         txConst i (mergedTx, vErrors)
       = sign_input S view keystore nHashType txVariants txConst i (mergedTx, vErrors).
Proof.
  intros Hdisj Hsingle Hout.
  pose proof (fHashSingle_single S nHashType Hdisj Hsingle) as Hfs.
  assert (Hlt : (i <? length (vout mergedTx))%nat = false) by (apply Nat.ltb_ge; lia).
  assert (Hskip : forall S', fHashSingle S' nHashType = true ->
            forall a p, produce S' keystore mergedTx i a nHashType p = SignatureData_empty).
  { intros S' HS' a p. unfold produce. by rewrite HS', Hlt. }
  split; [by apply Hskip|].
  intros produce_fn view txVariants txConst vErrors. unfold sign_input.
  destruct (vin mergedTx !! i) as [txin|]; [|done].
  destruct (available_output view (prevout txin)) as [coin|]; [|done].
  by rewrite !Hskip.
Qed.

Lemma single_without_output_skips_production_witness :
  produce Sample.engine (AddKey [Byte.x42] KeyStore_empty) Sample.spend 2 60 131
    [Byte.x42] = SignatureData_empty
  /\ forall produce_fn view txVariants txConst vErrors,
       sign_input (with_producer produce_fn Sample.engine) view
         (AddKey [Byte.x42] KeyStore_empty) 131 txVariants txConst 2
         (Sample.spend, vErrors)
       = sign_input Sample.engine view (AddKey [Byte.x42] KeyStore_empty) 131
           txVariants txConst 2 (Sample.spend, vErrors).
Proof.
  apply (single_without_output_skips_production Sample.engine
           (AddKey [Byte.x42] KeyStore_empty) Sample.spend 2 60 131 [Byte.x42]).
  - reflexivity.
  - right. reflexivity.
  - simpl. lia.
Defined.

(** With any other sighash type, or with an output at the input's index,
    the producer is called. *)
Lemma produce_calls_producer S keystore mergedTx i amount nHashType prevPubKey :
  fHashSingle S nHashType = false \/ (i < length (vout mergedTx))%nat ->
  produce S keystore mergedTx i amount nHashType prevPubKey
  = ProduceSignature S keystore mergedTx i amount nHashType prevPubKey.
Proof.
  intros [Hfs|Hlt]; unfold produce.
  - by rewrite Hfs.
  - apply Nat.ltb_lt in Hlt. by rewrite Hlt, orb_true_r.
Qed.

(** ** signrawtransaction: declared previous outputs *)

Lemma rpc_bind_return {A B} (a : A) (f : A -> rpc B) : (Return a ≫= f) = f a.
Proof. done. Qed.

Lemma declare_all_cons S E fGivenKeys entry rest st :
  declare_all S E fGivenKeys (entry :: rest) st
  = (declare_prevout S E fGivenKeys st entry ≫= declare_all S E fGivenKeys rest).
Proof. done. Qed.

Lemma declare_all_app S E fGivenKeys pre post st :
  declare_all S E fGivenKeys (pre ++ post) st
  = (declare_all S E fGivenKeys pre st ≫= declare_all S E fGivenKeys post).
Proof.
  revert st. induction pre as [|entry pre IH]; intros st; [done|].
  simpl. destruct (declare_prevout S E fGivenKeys st entry) as [st'|]; [|done].
  simpl. apply IH.
Qed.

(** The declaration of an outpoint that resolves in the view to a coin with
    another locking script. *)
Lemma declare_prevout_conflict S E fGivenKeys st p coin :
  0 <= p_vout p ->
  available_output st.1 (declared_outpoint p) = Some coin ->
  scriptPubKey coin <> p_scriptPubKey p ->
  declare_prevout S E fGivenKeys st (Some p)
  = Throw RPC_DESERIALIZATION_ERROR
      (mismatch_msg S (scriptPubKey coin) (p_scriptPubKey p)).
Proof.
  intros Hvout Hcoin Hdiff. unfold declare_prevout.
  destruct (Z.ltb_spec (p_vout p) 0) as [|_]; [lia|].
  unfold available_output, declared_outpoint in Hcoin. simpl in Hcoin.
  rewrite Z_N_nat in Hcoin.
  unfold ModifyCoins.
  destruct (st.1 !! p_txid p) as [coins|]; [|done]. simpl.
  unfold script_conflict.
  destruct (IsAvailable coins (Z.to_nat (p_vout p))); [|done].
  rewrite Hcoin. by rewrite bool_decide_false.
Qed.

(** C7.  When a declaration of [prevtxs] names an outpoint that already
    resolves, in the view as the earlier declarations left it, to a coin
    whose locking script is not the declared one, the whole call throws
    RPC_DESERIALIZATION_ERROR with the mismatch message: no transaction, no
    flag and no error list come back, whatever the declarations before and
    after it. *)
Theorem signrawtransaction_conflicting_declaration S E req primary rest keys
    pre p post st coin :
  req_txVariants req = Some (primary :: rest) ->
  keys_stage E (req_privatekeys req) = Return keys ->
  req_prevTxs req = Some (pre ++ Some p :: post) ->
  declare_all S E keys.1 pre
    (fetch_inputs (viewMempool_GetCoins E) primary, keys.2) = Return st ->
  0 <= p_vout p ->
  available_output st.1 (declared_outpoint p) = Some coin ->
  scriptPubKey coin <> p_scriptPubKey p ->
  sign_engine S E req
  = Throw RPC_DESERIALIZATION_ERROR
      (mismatch_msg S (scriptPubKey coin) (p_scriptPubKey p))
  /\ signrawtransaction S E req
     = Throw RPC_DESERIALIZATION_ERROR
         (mismatch_msg S (scriptPubKey coin) (p_scriptPubKey p)).
Proof.
  intros Hreq Hkeys Hprev Hpre Hvout Hcoin Hdiff.
  assert (Hengine : sign_engine S E req
                    = Throw RPC_DESERIALIZATION_ERROR
                        (mismatch_msg S (scriptPubKey coin) (p_scriptPubKey p))).
  { unfold sign_engine. rewrite Hreq, Hkeys. simpl. rewrite Hprev.
    rewrite declare_all_app, Hpre, rpc_bind_return, declare_all_cons.
    by rewrite (declare_prevout_conflict S E keys.1 st p coin). }
  split; [done|]. unfold signrawtransaction. by rewrite Hengine.
Qed.

Lemma signrawtransaction_conflicting_declaration_witness :
  sign_engine Sample.engine Sample.node Sample.request_conflict
  = Throw RPC_DESERIALIZATION_ERROR
      (mismatch_msg Sample.engine [Byte.x41] [Byte.x44])
  /\ signrawtransaction Sample.engine Sample.node Sample.request_conflict
     = Throw RPC_DESERIALIZATION_ERROR
         (mismatch_msg Sample.engine [Byte.x41] [Byte.x44]).
Proof.
  apply (signrawtransaction_conflicting_declaration Sample.engine Sample.node
           Sample.request_conflict Sample.spend []
           (true, AddKey [Byte.x41] KeyStore_empty)
           [Some (Sample.declaration 12%N 0 [Byte.x43])]
           (Sample.declaration 11%N 0 [Byte.x44]) []
           (<[12%N := overlay_write (ModifyCoins Sample.view 12%N) 0
                        (Sample.declaration 12%N 0 [Byte.x43])]> Sample.view,
            AddKey [Byte.x41] KeyStore_empty)
           {| nValue := 50; scriptPubKey := [Byte.x41] |}).
  - reflexivity.
  - reflexivity.
  - reflexivity.
  - reflexivity.
  - simpl. lia.
  - vm_compute. reflexivity.
  - simpl. discriminate.
Defined.

(** ** Combination of variants *)

Section Combination.
Context {Sig PubKey : Type} `{Countable Sig, Countable PubKey}.
Variable CheckSig : Sig -> PubKey -> bool.
Variable pubkeys : list PubKey.

Local Abbreviation valid := (SigCombine.valid_pairs CheckSig pubkeys).
Local Abbreviation solution := (SigCombine.solution_of pubkeys).
Local Abbreviation combine := (SigCombine.CombineSignatures CheckSig pubkeys).
Local Abbreviation saturated := (SigCombine.saturated CheckSig pubkeys).
Local Abbreviation discovered := (SigCombine.discovered CheckSig pubkeys).

Lemma elem_of_valid_pairs (s : Sig) (k : PubKey) (content : list Sig) :
  (s, k) ∈ valid content <-> s ∈ content /\ k ∈ pubkeys /\ CheckSig s k = true.
Proof.
  unfold SigCombine.valid_pairs.
  rewrite elem_of_list_to_set, list_elem_of_filter, list_elem_of_In, in_prod_iff,
    <- !list_elem_of_In. simpl. tauto.
Qed.

Lemma elem_of_solution_of (s : Sig) (pairs : gset (Sig * PubKey)) :
  s ∈ solution pairs <-> exists k, k ∈ pubkeys /\ (s, k) ∈ pairs.
Proof.
  unfold SigCombine.solution_of, SigCombine.matched_to.
  rewrite list_elem_of_In, in_flat_map. split.
  - intros (k & Hk & Hs). exists k. rewrite <- !list_elem_of_In in *.
    split; [done|]. apply list_elem_of_fmap in Hs as ([s' k'] & -> & Hp).
    apply elem_of_elements, elem_of_filter in Hp as [Hk' Hp]. simpl in *. by subst.
  - intros (k & Hk & Hs). exists k. rewrite <- !list_elem_of_In.
    split; [done|]. apply list_elem_of_fmap. exists (s, k). split; [done|].
    apply elem_of_elements, elem_of_filter. done.
Qed.

Lemma valid_pairs_saturated content : saturated (valid content).
Proof.
  intros s k (Hs & Hk & Hc)%elem_of_valid_pairs. split; [done|]. split; [done|].
  intros k' Hk' Hc'. by apply elem_of_valid_pairs.
Qed.

Lemma saturated_union pairs1 pairs2 :
  saturated pairs1 -> saturated pairs2 -> saturated (pairs1 ∪ pairs2).
Proof.
  intros H1 H2 s k [Hp|Hp]%elem_of_union.
  - destruct (H1 s k Hp) as (? & ? & Hall). split; [done|]. split; [done|].
    intros k' ? ?. apply elem_of_union_l. by apply Hall.
  - destruct (H2 s k Hp) as (? & ? & Hall). split; [done|]. split; [done|].
    intros k' ? ?. apply elem_of_union_r. by apply Hall.
Qed.

(** Nothing is lost or gained by laying a set of pairs out as a solution. *)
Lemma valid_pairs_solution_of pairs :
  saturated pairs -> valid (solution pairs) = pairs.
Proof.
  intros Hsat. apply set_eq. intros [s k].
  rewrite elem_of_valid_pairs, elem_of_solution_of. split.
  - intros ((k' & Hk' & Hp) & Hk & Hc). destruct (Hsat s k' Hp) as (_ & _ & Hall).
    by apply Hall.
  - intros Hp. destruct (Hsat s k Hp) as (Hk & Hc & _). split; [|done]. by exists k.
Qed.

Lemma combine_valid_pairs sigs1 sigs2 :
  valid (combine sigs1 sigs2) = valid sigs1 ∪ valid sigs2.
Proof.
  unfold SigCombine.CombineSignatures. apply valid_pairs_solution_of.
  apply saturated_union; apply valid_pairs_saturated.
Qed.

(** The loop of lines 938-940 gathers the pairs of [sigdata] and of every
    variant. *)
Lemma merge_variants_valid_pairs {TxV : Type} (data : TxV -> list Sig) txVariants :
  forall sigdata,
    valid (merge_variants combine data txVariants sigdata)
    = valid sigdata ∪ discovered data txVariants.
Proof.
  unfold SigCombine.discovered.
  induction txVariants as [|txv rest IH]; intros sigdata; simpl.
  - set_solver.
  - rewrite IH, combine_valid_pairs. set_solver.
Qed.

Lemma merge_variants_solution {TxV : Type} (data : TxV -> list Sig) txVariants sigdata :
  txVariants <> [] ->
  merge_variants combine data txVariants sigdata
  = solution (valid sigdata ∪ discovered data txVariants).
Proof.
  destruct (decide (txVariants = [])) as [|Hne]; [done|]. intros _.
  destruct (exists_last Hne) as (front & txv & ->).
  unfold merge_variants. rewrite fold_left_app. simpl.
  fold (merge_variants combine data front sigdata).
  unfold SigCombine.CombineSignatures at 1.
  rewrite merge_variants_valid_pairs. f_equal.
  unfold SigCombine.discovered. rewrite fmap_app, union_list_app_L. simpl. set_solver.
Qed.

(** Reordering the variants does not change the merged solution. *)
Lemma merge_variants_permutation {TxV : Type} (data : TxV -> list Sig)
    txVariants txVariants' sigdata :
  txVariants ≡ₚ txVariants' ->
  merge_variants combine data txVariants sigdata
  = merge_variants combine data txVariants' sigdata.
Proof.
  intros Hperm. destruct txVariants as [|txv rest].
  - apply Permutation_nil_l in Hperm. by subst.
  - assert (txVariants' <> []).
    { intros ->. by apply Permutation_nil_r in Hperm. }
    rewrite !merge_variants_solution by done. f_equal. f_equal.
    unfold SigCombine.discovered. apply set_eq. intros pair.
    rewrite !elem_of_union_list. split; intros (X & HX & Hp); exists X;
      (split; [|done]); [by rewrite <- Hperm|by rewrite Hperm].
Qed.
End Combination.

(** Two signers of a 2-of-3 multisig, one signature each (the second
    variant also carries a push that checks against no key): either order
    of combination gives both signatures, in key order. *)
Example combine_two_of_three :
  SigCombine.CombineSignatures Sample.multisig_check Sample.multisig_keys
    [103%N] [999%N; 101%N] = [101%N; 103%N]
  /\ SigCombine.CombineSignatures Sample.multisig_check Sample.multisig_keys
       [999%N; 101%N] [103%N] = [101%N; 103%N].
Proof. split; vm_compute; reflexivity. Qed.


(** * Properties of the remaining calls *)

(** ** createrawtransaction *)

Lemma get_int_inv v n : get_int v = Return n -> n = v /\ int_min <= v <= int_max.
Proof.
  unfold get_int.
  destruct (Z.leb_spec int_min v), (Z.leb_spec v int_max); simpl;
    try discriminate.
  intros [= <-]. lia.
Qed.

Lemma get_int64_inv v n :
  get_int64 v = Return n -> n = v /\ int64_min <= v <= int64_max.
Proof.
  unfold get_int64.
  destruct (Z.leb_spec int64_min v), (Z.leb_spec v int64_max); simpl;
    try discriminate.
  intros [= <-]. lia.
Qed.

Lemma make_input_inv nLockTime o txin :
  make_input nLockTime o = Return txin ->
  exists nOutput nSequence,
    Create.vout_v o = VNUM nOutput /\ 0 <= nOutput <= int_max
    /\ 0 <= nSequence <= uint32_max
    /\ nSequence = match Create.sequenceObj o with
                   | VNUM seqNr64 => seqNr64
                   | _ => if (nLockTime =? 0)%N then uint32_max else uint32_max - 1
                   end
    /\ txin = {| prevout := {| op_hash := Create.txid o; op_n := Z.to_N nOutput |};
                 scriptSig := [];
                 nSequence := Z.to_N nSequence |}.
Proof.
  unfold make_input. destruct (Create.vout_v o) as [| | v | | |]; try discriminate.
  destruct (get_int v) as [nOutput|] eqn:Hint; [|discriminate].
  apply get_int_inv in Hint as [-> Hrange]. rewrite rpc_bind_return.
  destruct (Z.ltb_spec v 0); [discriminate|].
  destruct (Create.sequenceObj o) as [| | v64 | | |]; simpl;
    try (intros [= <-];
         exists v, (if (nLockTime =? 0)%N then uint32_max else uint32_max - 1);
         destruct (nLockTime =? 0)%N; unfold uint32_max; simpl;
         repeat split; (done || lia)).
  destruct (get_int64 v64) as [seqNr64|] eqn:Hint64; [|discriminate].
  apply get_int64_inv in Hint64 as [-> _]. simpl.
  destruct (Z.ltb_spec v64 0); [discriminate|].
  destruct (Z.ltb_spec uint32_max v64); [discriminate|]. simpl.
  intros [= <-]. exists v, v64. repeat split; (done || lia).
Qed.

Lemma make_inputs_inv nLockTime inputs : forall acc vin,
  make_inputs nLockTime inputs acc = Return vin ->
  exists new,
    vin = acc ++ new
    /\ Forall2 (fun o txin => make_input nLockTime o = Return txin) inputs new.
Proof.
  induction inputs as [|o rest IH]; intros acc vin; simpl.
  - intros [= <-]. exists []. by rewrite app_nil_r.
  - destruct (make_input nLockTime o) as [txin|] eqn:Hin; [|discriminate]. simpl.
    intros (new & -> & Hall)%IH. exists (txin :: new).
    split; [by rewrite <- app_assoc|]. by constructor.
Qed.

Lemma parse_locktime_inv locktime nLockTime :
  parse_locktime locktime = Return nLockTime ->
  Z.of_N nLockTime = default 0 locktime /\ 0 <= default 0 locktime <= uint32_max.
Proof.
  unfold parse_locktime. destruct locktime as [v|]; simpl.
  - destruct (get_int64 v) as [z|] eqn:Hint64; [|discriminate].
    apply get_int64_inv in Hint64 as [-> _]. simpl.
    destruct (Z.ltb_spec v 0); [discriminate|].
    destruct (Z.ltb_spec uint32_max v); [discriminate|]. simpl.
    intros [= <-]. lia.
  - intros [= <-]. unfold uint32_max. lia.
Qed.

Lemma named_addresses_data E name_ rest :
  String.eqb name_ "data" = true ->
  named_addresses E (name_ :: rest) = named_addresses E rest.
Proof.
  intros Hdata. unfold named_addresses. rewrite filter_cons.
  destruct (decide _) as [Hf|]; [congruence|done].
Qed.

Lemma named_addresses_address E name_ rest :
  String.eqb name_ "data" = false ->
  named_addresses E (name_ :: rest)
  = default CNoDestination (Create.DecodeAddress E name_) :: named_addresses E rest.
Proof.
  intros Hdata. unfold named_addresses. rewrite filter_cons.
  destruct (decide _) as [|Hf]; [done|congruence].
Qed.

Lemma make_outputs_inv E sendTo addrList : forall seen acc vout,
  make_outputs E sendTo addrList (seen, acc) = Return vout ->
  exists new,
    vout = acc ++ new
    /\ Forall2 (output_for E sendTo) addrList new
    /\ NoDup (named_addresses E addrList)
    /\ (forall a, a ∈ named_addresses E addrList -> a ∉ seen).
Proof.
  induction addrList as [|name_ rest IH]; intros seen acc vout.
  - simpl. intros [= <-]. exists []. rewrite app_nil_r. split; [done|].
    split; [constructor|]. split; [constructor|].
    intros a Ha. by apply elem_of_nil in Ha.
  - destruct (String.eqb name_ "data") eqn:Hdata.
    + rewrite (named_addresses_data E name_ rest Hdata).
      cbn [make_outputs]. rewrite Hdata.
      destruct (Create.ParseHexV_Data E (find_value sendTo name_)) as [data|] eqn:Hd;
        [|discriminate].
      rewrite rpc_bind_return. cbn [fst snd].
      intros (new & -> & Hall & Hnd & Hseen)%IH. eexists (_ :: new).
      split; [by rewrite <- app_assoc|]. split; [|done].
      constructor; [|done]. unfold output_for. rewrite Hdata. by exists data.
    + rewrite (named_addresses_address E name_ rest Hdata).
      cbn [make_outputs]. rewrite Hdata.
      destruct (Create.DecodeAddress E name_) as [address|] eqn:Haddr; [|discriminate].
      cbn [fst snd default]. case_bool_decide as Hin; [discriminate|].
      destruct (Create.AmountFromValue E (find_value sendTo name_)) as [nAmount|] eqn:Ha;
        [|discriminate].
      rewrite rpc_bind_return.
      intros (new & -> & Hall & Hnd & Hseen)%IH. eexists (_ :: new).
      split; [by rewrite <- app_assoc|]. split.
      { constructor; [|done]. unfold output_for. rewrite Hdata.
        by exists address, nAmount. }
      split.
      * constructor; [|done]. intros Hdup. apply (Hseen _ Hdup). set_solver.
      * intros a [->|Ha']%elem_of_cons; [done|].
        intros Hs. apply (Hseen _ Ha'). set_solver.
Qed.

Lemma build_rawtx_inv E inputs sendTo locktime rawTx :
  build_rawtx E (Some inputs) (Some sendTo) locktime = Return rawTx ->
  exists lock,
    parse_locktime locktime = Return lock
    /\ make_inputs lock inputs [] = Return (vin rawTx)
    /\ make_outputs E sendTo sendTo.*1 ([], []) = Return (vout rawTx)
    /\ nVersion rawTx = Create.CURRENT_VERSION E
    /\ wit_vtxinwit rawTx = []
    /\ nLockTime rawTx = lock.
Proof.
  unfold build_rawtx. intros Hbuild.
  destruct (parse_locktime locktime) as [lock|] eqn:Hlock; [|discriminate].
  rewrite rpc_bind_return in Hbuild.
  destruct (make_inputs lock inputs []) as [ins|] eqn:Hins; [|discriminate].
  rewrite rpc_bind_return in Hbuild.
  destruct (make_outputs E sendTo sendTo.*1 ([], [])) as [outs|] eqn:Houts;
    [|discriminate].
  rewrite rpc_bind_return in Hbuild. injection Hbuild as <-.
  exists lock. done.
Qed.

(** X1.  The transaction built by [createrawtransaction] mirrors the
    request and is unsigned: it has the current version, the requested lock
    time (0 when none is given, and always within 32 bits), one input per
    requested input, in order, spending the requested outpoint with an
    empty unlocking script, no witness, and one output per key of the
    outputs object. *)
Theorem build_rawtx_unsigned E inputs sendTo locktime rawTx :
  build_rawtx E (Some inputs) (Some sendTo) locktime = Return rawTx ->
  nVersion rawTx = Create.CURRENT_VERSION E
  /\ Z.of_N (nLockTime rawTx) = default 0 locktime
  /\ 0 <= default 0 locktime <= uint32_max
  /\ Forall2 (fun o txin =>
                op_hash (prevout txin) = Create.txid o
                /\ Create.vout_v o = VNUM (Z.of_N (op_n (prevout txin)))
                /\ scriptSig txin = [])
       inputs (vin rawTx)
  /\ wit_vtxinwit rawTx = []
  /\ length (vout rawTx) = length sendTo.
Proof.
  intros (lock & Hlock & Hin & Hout & Hver & Hwit & Hlt)%build_rawtx_inv.
  apply parse_locktime_inv in Hlock as [Hl Hrange].
  apply make_inputs_inv in Hin as (new & Hvin & Hall). simpl in Hvin.
  apply make_outputs_inv in Hout as (outs & Hvout & Hall' & _). simpl in Hvout.
  split; [done|]. split; [by rewrite Hlt|]. split; [done|]. split.
  - rewrite Hvin. eapply Forall2_impl; [exact Hall|]. simpl.
    intros o txin (nOutput & nSequence & Hv & Hpos & _ & _ & ->)%make_input_inv.
    simpl. rewrite Hv, Z2N.id by lia. done.
  - split; [done|]. rewrite Hvout.
    by rewrite <- (Forall2_length _ _ _ Hall'), length_fmap.
Qed.

(** X2.  Sequence numbers: an input with a numeric [sequence] gets that
    number; any other input gets 0xFFFFFFFF when the lock time is zero and
    0xFFFFFFFE when it is not, so a requested lock time is never left
    disabled by the default. *)
Theorem build_rawtx_sequence E inputs sendTo locktime rawTx :
  build_rawtx E (Some inputs) (Some sendTo) locktime = Return rawTx ->
  Forall2 (fun o txin => Z.of_N (nSequence txin) = expected_sequence locktime o)
    inputs (vin rawTx).
Proof.
  intros (lock & Hlock & Hin & _)%build_rawtx_inv.
  apply parse_locktime_inv in Hlock as [Hl Hrange].
  apply make_inputs_inv in Hin as (new & -> & Hall). simpl.
  eapply Forall2_impl; [exact Hall|]. simpl.
  intros o txin (nOutput & nSequence & _ & _ & Hseq & Hdef & ->)%make_input_inv.
  simpl. rewrite Z2N.id by lia. rewrite Hdef. unfold expected_sequence.
  destruct (Create.sequenceObj o); try done;
    rewrite <- Hl; by destruct lock.
Qed.

(** X3.  Outputs follow the keys of the outputs object, in order: the key
    [data] gives a zero-value output carrying the data, any other key is a
    valid address and gives an output paying the parsed amount to the
    script of that address. *)
Theorem build_rawtx_outputs E inputs sendTo locktime rawTx :
  build_rawtx E (Some inputs) (Some sendTo) locktime = Return rawTx ->
  Forall2 (output_for E sendTo) sendTo.*1 (vout rawTx).
Proof.
  intros (lock & _ & _ & Hout & _)%build_rawtx_inv.
  by apply make_outputs_inv in Hout as (outs & -> & Hall & _).
Qed.

(** X4.  No transaction is built when two keys of the outputs object name
    the same address: the call throws. *)
Theorem createrawtransaction_duplicate_address E inputs sendTo locktime :
  ~ NoDup (named_addresses E sendTo.*1) ->
  exists code msg,
    createrawtransaction E (Some inputs) (Some sendTo) locktime = Throw code msg.
Proof.
  intros Hdup. unfold createrawtransaction.
  destruct (build_rawtx E (Some inputs) (Some sendTo) locktime) as [rawTx|code msg] eqn:Hb.
  - apply build_rawtx_inv in Hb as (lock & _ & _ & Hout & _).
    apply make_outputs_inv in Hout as (outs & _ & _ & Hnd & _). contradiction.
  - by exists code, msg.
Qed.

(** X26.  An input whose [vout] is a number outside 0 .. INT_MAX is never
    turned into a transaction input.  Below zero but within [int] the loop
    throws RPC_INVALID_PARAMETER, vout must be positive; outside [int] the
    number accessor throws JSON integer out of range before that test is
    reached.  A request holding such an input builds no transaction, wherever
    the input stands in the list. *)
Theorem createrawtransaction_vout_range E inputs sendTo locktime o v :
  o ∈ inputs ->
  Create.vout_v o = VNUM v ->
  ~ (0 <= v <= int_max) ->
  (forall nLockTime,
     make_input nLockTime o
     = if decide (int_min <= v < 0)
       then Throw RPC_INVALID_PARAMETER "Invalid parameter, vout must be positive"
       else Throw RPC_MISC_ERROR "JSON integer out of range")
  /\ exists code msg,
       createrawtransaction E (Some inputs) (Some sendTo) locktime = Throw code msg.
Proof.
  intros Hin Hv Hrange. split.
  - intros lock. unfold make_input, get_int. rewrite Hv.
    destruct (decide (int_min <= v < 0)) as [Hneg|Hout].
    + destruct (Z.leb_spec int_min v); [|lia].
      destruct (Z.leb_spec v int_max); [|unfold int_max in *; lia]. simpl.
      destruct (Z.ltb_spec v 0); [reflexivity|lia].
    + destruct (Z.leb_spec int_min v); [|reflexivity].
      destruct (Z.leb_spec v int_max); [lia|reflexivity].
  - unfold createrawtransaction.
    destruct (build_rawtx E (Some inputs) (Some sendTo) locktime)
      as [rawTx|code msg] eqn:Hb; [|by exists code, msg].
    apply build_rawtx_inv in Hb as (lock & _ & Hins & _).
    apply make_inputs_inv in Hins as (new & _ & Hall).
    apply list_elem_of_lookup in Hin as [i Hi].
    destruct (Forall2_lookup_l _ _ _ _ _ Hall Hi) as (txin & _ & Hmade).
    apply make_input_inv in Hmade as (nOutput & _ & Hv' & Hpos & _).
    rewrite Hv in Hv'. injection Hv' as ->. contradiction.
Qed.

Lemma createrawtransaction_vout_range_witness :
  (forall nLockTime,
     make_input nLockTime SampleMore.input_past_int
     = Throw RPC_MISC_ERROR "JSON integer out of range")
  /\ exists code msg,
       createrawtransaction SampleMore.creator
         (Some (SampleMore.inputs ++ [SampleMore.input_past_int]))
         (Some SampleMore.sendTo) (Some 500)
       = Throw code msg.
Proof.
  apply (createrawtransaction_vout_range SampleMore.creator
           (SampleMore.inputs ++ [SampleMore.input_past_int])
           SampleMore.sendTo (Some 500) SampleMore.input_past_int 2147483648).
  - apply list_elem_of_further, list_elem_of_further, list_elem_of_here.
  - reflexivity.
  - unfold int_max. lia.
Defined.

(** ** JSON objects *)

Lemma has_key_app entries1 entries2 name :
  has_key (entries1 ++ entries2) name = has_key entries1 name || has_key entries2 name.
Proof. unfold has_key. apply existsb_app. Qed.

Lemma find_value_app entries1 entries2 name :
  find_value (entries1 ++ entries2) name
  = if has_key entries1 name then find_value entries1 name
    else find_value entries2 name.
Proof.
  induction entries1 as [|[k v] rest IH]; [done|]. simpl.
  destruct (String.eqb k name); [done|]. apply IH.
Qed.

(** ** ScriptPubKeyToJSON and decodescript *)

Lemma ScriptPubKeyToJSON_entries R scriptPubKey fIncludeHex :
  let out := ScriptPubKeyToJSON R scriptPubKey [] fIncludeHex in
  let '(ok, type, addresses, nRequired) := Render.ExtractDestinations R scriptPubKey in
  find_value out "asm" = VSTR (Render.ScriptToAsmStr R scriptPubKey false)
  /\ find_value out "type" = VSTR (Render.GetTxnOutputType R type)
  /\ has_key out "hex" = fIncludeHex
  /\ (fIncludeHex = true -> find_value out "hex" = VSTR (Render.HexStr R scriptPubKey))
  /\ has_key out "addresses" = ok
  /\ has_key out "reqSigs" = ok
  /\ (ok = true ->
      find_value out "reqSigs" = VNUM nRequired
      /\ find_value out "addresses"
         = VARR ((fun addr => VSTR (Render.AddressToString R addr)) <$> addresses)).
Proof.
  unfold ScriptPubKeyToJSON.
  destruct (Render.ExtractDestinations R scriptPubKey) as [[[ok type] addresses] nRequired].
  destruct ok, fIncludeHex; simpl; repeat split; done.
Qed.

(** X5.  [ScriptPubKeyToJSON] always prints [asm] and [type], prints [hex]
    exactly when asked to, and prints [reqSigs] and [addresses] exactly
    when the destinations of the script can be extracted; then there is one
    address string per destination, in order. *)
Theorem ScriptPubKeyToJSON_fields R scriptPubKey fIncludeHex :
  let out := ScriptPubKeyToJSON R scriptPubKey [] fIncludeHex in
  let '(ok, type, addresses, nRequired) := Render.ExtractDestinations R scriptPubKey in
  find_value out "asm" = VSTR (Render.ScriptToAsmStr R scriptPubKey false)
  /\ find_value out "type" = VSTR (Render.GetTxnOutputType R type)
  /\ has_key out "hex" = fIncludeHex
  /\ (fIncludeHex = true -> find_value out "hex" = VSTR (Render.HexStr R scriptPubKey))
  /\ has_key out "addresses" = ok
  /\ has_key out "reqSigs" = ok
  /\ (ok = true ->
      find_value out "reqSigs" = VNUM nRequired
      /\ find_value out "addresses"
         = VARR ((fun addr => VSTR (Render.AddressToString R addr)) <$> addresses)).
Proof. apply ScriptPubKeyToJSON_entries. Qed.

(** X6.  [decodescript] never prints [hex]; it always prints [asm] and
    [type]; and it prints the [p2sh] address of the script exactly when the
    type is not scripthash. *)
Theorem decodescript_fields R hexstring v :
  decodescript R hexstring = Return v ->
  exists r type,
    v = VOBJ r
    /\ has_key r "hex" = false
    /\ has_key r "asm" = true
    /\ find_value r "type" = VSTR type
    /\ has_key r "p2sh" = negb (String.eqb type "scripthash").
Proof.
  unfold decodescript.
  destruct (if (0 <? String.length hexstring)%nat then _ else _) as [script|];
    [|discriminate].
  rewrite rpc_bind_return.
  pose proof (ScriptPubKeyToJSON_entries R script false) as Hf. simpl in Hf.
  set (r := ScriptPubKeyToJSON R script [] false) in *.
  destruct (Render.ExtractDestinations R script) as [[[ok type] addresses] nRequired].
  destruct Hf as (Hasm & Htype & Hhex & _ & Haddr & Hreq & _).
  assert (Hp2sh : has_key r "p2sh" = false).
  { unfold r, ScriptPubKeyToJSON.
    destruct (Render.ExtractDestinations R script) as [[[ok' type'] a'] n'].
    by destruct ok'. }
  assert (Hasm' : has_key r "asm" = true).
  { unfold r, ScriptPubKeyToJSON.
    destruct (Render.ExtractDestinations R script) as [[[ok' type'] a'] n'].
    by destruct ok'. }
  assert (Htype' : has_key r "type" = true).
  { unfold r, ScriptPubKeyToJSON.
    destruct (Render.ExtractDestinations R script) as [[[ok' type'] a'] n'].
    by destruct ok'. }
  rewrite Htype.
  destruct (String.eqb (Render.GetTxnOutputType R type) "scripthash") eqn:Hsh; simpl;
    intros [= <-]; eexists _, _; (split; [reflexivity|]).
  - rewrite Hsh. repeat split; assumption.
  - rewrite !has_key_app, find_value_app, Hhex, Hasm', Hp2sh, Htype', Htype, Hsh.
    repeat split; reflexivity.
Qed.

(** X7.  The empty string is a valid argument of [decodescript]: it is
    decoded as the empty script, without any hex parsing, and the call
    returns. *)
Theorem decodescript_empty R :
  exists r,
    decodescript R EmptyString = Return (VOBJ r)
    /\ find_value r "asm" = VSTR (Render.ScriptToAsmStr R [] false)
    /\ forall parse, decodescript (with_ParseHexV parse R) EmptyString
         = Return (VOBJ r).
Proof.
  unfold decodescript. simpl.
  unfold ScriptPubKeyToJSON. simpl.
  destruct (Render.ExtractDestinations R []) as [[[ok type] addresses] nRequired].
  destruct ok; simpl;
    destruct (String.eqb (Render.GetTxnOutputType R type) "scripthash");
    simpl; eexists; (split; [reflexivity|]); split; done.
Qed.

(** ** TxToJSON and decoderawtransaction *)

Lemma txinwitness_entries_keys R tx i name :
  name <> "txinwitness"%string ->
  has_key (txinwitness_entries R tx i) name = false.
Proof.
  intros Hne. unfold txinwitness_entries.
  destruct (negb _); [|done]. destruct (wit_vtxinwit tx !! i) as [w|]; [|done].
  destruct (negb _); [|done]. unfold has_key. cbn [existsb fst].
  rewrite orb_false_r. apply String.eqb_neq. congruence.
Qed.

(** X8.  How [TxToJSON] prints an input: the input of a coinbase
    transaction shows its script under [coinbase] and has no [txid],
    [vout] or [scriptSig]; any other input shows the outpoint it spends and
    its unlocking script, and has no [coinbase]; both show the sequence
    number. *)
Theorem txin_entry_fields R tx i txin :
  exists fields,
    txin_entry R tx i txin = VOBJ fields
    /\ find_value fields "sequence" = VNUM (Z.of_N (nSequence txin))
    /\ if Render.IsCoinBase R tx
       then find_value fields "coinbase" = VSTR (Render.HexStr R (scriptSig txin))
            /\ has_key fields "txid" = false
            /\ has_key fields "vout" = false
            /\ has_key fields "scriptSig" = false
       else find_value fields "txid" = VSTR (Render.GetHex R (op_hash (prevout txin)))
            /\ find_value fields "vout" = VNUM (Z.of_N (op_n (prevout txin)))
            /\ find_value fields "scriptSig"
               = VOBJ [("asm", VSTR (Render.ScriptToAsmStr R (scriptSig txin) true));
                       ("hex", VSTR (Render.HexStr R (scriptSig txin)))]%string
            /\ has_key fields "coinbase" = false.
Proof.
  unfold txin_entry. eexists. split; [reflexivity|].
  pose proof (txinwitness_entries_keys R tx i) as Hw.
  destruct (Render.IsCoinBase R tx);
    rewrite ?find_value_app, ?has_key_app, ?Hw by done; simpl;
    rewrite ?Hw by done; repeat split; reflexivity.
Qed.

Lemma TxToJSON_vin_vout R C tx hashBlock :
  find_value (TxToJSON R C tx hashBlock []) "vin" = VARR (imap (txin_entry R tx) (vin tx))
  /\ find_value (TxToJSON R C tx hashBlock []) "vout"
     = VARR (imap (txout_entry R) (vout tx)).
Proof. split; reflexivity. Qed.

(** X9.  [decoderawtransaction] prints one entry per input and one per
    output, in order, the output of index [i] carrying [n = i], its amount
    and its script; and since no block is given it prints neither
    [blockhash] nor [confirmations] nor [time]. *)
Theorem decoderawtransaction_shape R C hexstring tx :
  Render.DecodeHexTx R hexstring = Some tx ->
  exists entries ins outs,
    decoderawtransaction R C hexstring = Return (VOBJ entries)
    /\ find_value entries "txid" = VSTR (Render.GetHex R (Render.GetHash R tx))
    /\ find_value entries "vin" = VARR ins
    /\ length ins = length (vin tx)
    /\ (forall i txin, vin tx !! i = Some txin -> ins !! i = Some (txin_entry R tx i txin))
    /\ find_value entries "vout" = VARR outs
    /\ length outs = length (vout tx)
    /\ (forall i txout, vout tx !! i = Some txout ->
          exists fields,
            outs !! i = Some (VOBJ fields)
            /\ find_value fields "n" = VNUM (Z.of_nat i)
            /\ find_value fields "value" = Render.ValueFromAmount R (nValue txout))
    /\ has_key entries "blockhash" = false
    /\ has_key entries "confirmations" = false
    /\ has_key entries "time" = false.
Proof.
  intros Hdec. unfold decoderawtransaction. rewrite Hdec.
  exists (TxToJSON R C tx 0%N []), (imap (txin_entry R tx) (vin tx)),
    (imap (txout_entry R) (vout tx)).
  split; [done|]. split; [done|]. split; [done|].
  split; [by rewrite length_imap|]. split.
  { intros i txin Hi. by rewrite list_lookup_imap, Hi. }
  split; [done|]. split; [by rewrite length_imap|]. split.
  { intros i txout Hi. eexists. rewrite list_lookup_imap, Hi. simpl.
    split; [reflexivity|]. split; reflexivity. }
  repeat split; reflexivity.
Qed.

(** X10.  The block part of [TxToJSON], for a transaction found in the
    block [hashBlock]: the block hash is always printed; a block of the
    active chain gives [confirmations] = 1 + tip height - block height and
    the block time; an indexed block off the active chain gives
    [confirmations] = 0 and no time; a block unknown to the index gives
    neither. *)
Theorem TxToJSON_block_fields R C tx (hashBlock : uint256) :
  hashBlock <> 0%N ->
  let entry := TxToJSON R C tx hashBlock [] in
  find_value entry "blockhash" = VSTR (Render.GetHex R hashBlock)
  /\ find_value entry "confirmations"
     = match mapBlockIndex C !! hashBlock with
       | Some pindex =>
           if chainActive_Contains C pindex
           then VNUM (1 + chainActive_Height C - bi_nHeight pindex)
           else VNUM 0
       | None => VNULL
       end
  /\ find_value entry "time"
     = match mapBlockIndex C !! hashBlock with
       | Some pindex =>
           if chainActive_Contains C pindex
           then VNUM (Render.GetBlockTime R pindex)
           else VNULL
       | None => VNULL
       end.
Proof.
  intros Hne entry. unfold entry, TxToJSON, block_entries.
  destruct (N.eqb_spec hashBlock 0); [done|].
  destruct (mapBlockIndex C !! hashBlock) as [pindex|];
    [|repeat split; reflexivity].
  destruct (chainActive_Contains C pindex); repeat split; reflexivity.
Qed.

(** ** getrawtransaction *)

Lemma getrawtransaction_verbose R C lookup hash v tx hashBlock :
  lookup hash = Some (tx, hashBlock) -> v <> 0 ->
  getrawtransaction R C lookup hash (Some v)
  = Return (VOBJ (TxToJSONExpanded R tx hashBlock
                    [("hex", VSTR (Render.EncodeHexTx R tx))]%string
                    (block_position R C hashBlock).1.1
                    (block_position R C hashBlock).1.2
                    (block_position R C hashBlock).2)).
Proof.
  intros Hl Hv. unfold getrawtransaction. rewrite Hl.
  destruct (block_position R C hashBlock) as [[nHeight nConfirmations] nBlockTime].
  destruct (Z.eqb_spec v 0); done.
Qed.

(** X11.  Without [verbose], or with [verbose] = 0, [getrawtransaction]
    returns the hex encoding of the transaction and nothing else, whatever
    the chain state; with an id the lookup does not know, it throws
    RPC_INVALID_ADDRESS_OR_KEY, verbose or not. *)
Theorem getrawtransaction_plain R C lookup hash verbose :
  verbose = None \/ verbose = Some 0 ->
  getrawtransaction R C lookup hash verbose
  = match lookup hash with
    | Some (tx, _) => Return (VSTR (Render.EncodeHexTx R tx))
    | None => Throw RPC_INVALID_ADDRESS_OR_KEY
                "No information available about transaction"
    end.
Proof.
  intros Hv. unfold getrawtransaction.
  destruct (lookup hash) as [[tx hashBlock]|]; [|done].
  destruct (block_position R C hashBlock) as [[nHeight nConfirmations] nBlockTime].
  by destruct Hv as [-> | ->].
Qed.




(** ** sendrawtransaction: calls to the collaborators *)

(** X15.  A transaction is relayed exactly when the call succeeds: a call
    that returns has relayed the submitted transaction as its last action
    and returns the hex of its id; a call that throws has relayed
    nothing. *)
Theorem sendrawtransaction_relay_iff_success S decoded allowhighfees :
  match sendrawtransaction S decoded allowhighfees with
  | (trace, Return id) =>
      exists tx,
        decoded = Some tx
        /\ id = hash_GetHex S (tx_GetHash S tx)
        /\ last trace = Some (EvRelayTransaction tx)
  | (trace, Throw _ _) => forall tx, EvRelayTransaction tx ∉ trace
  end.
Proof.
  unfold sendrawtransaction. destruct decoded as [tx|]; [|intros tx; set_solver].
  destruct (negb (mempool_exists S (tx_GetHash S tx)) && negb (fHaveChain _)).
  - match goal with
    | |- context [AcceptToMemoryPool S tx ?fee] =>
        destruct (AcceptToMemoryPool S tx fee) as [[accepted state] missing]
    end.
    destruct accepted; simpl; [by exists tx|].
    destruct (IsInvalid state); [|destruct missing]; intros tx' Hin;
      apply list_elem_of_singleton in Hin; discriminate.
  - destruct (fHaveChain _); [intros tx'; set_solver|]. by exists tx.
Qed.

(** X16.  The pool-validation capability is called at most once, and only
    for a decoded transaction that is neither in the pending pool nor
    confirmed in the coin view; the fee ceiling passed is 0 when
    [allowhighfees] is true and [maxTxFee] otherwise. *)
Theorem sendrawtransaction_validation_calls S decoded allowhighfees :
  let trace := (sendrawtransaction S decoded allowhighfees).1 in
  (length (filter (fun e => is_accept e = true) trace) <= 1)%nat
  /\ forall tx fee,
       EvAcceptToMemoryPool tx fee ∈ trace ->
       decoded = Some tx
       /\ mempool_exists S (tx_GetHash S tx) = false
       /\ fHaveChain (pcoinsTip_AccessCoins S (tx_GetHash S tx)) = false
       /\ fee = (if bool_decide (allowhighfees = Some true) then 0 else maxTxFee S).
Proof.
  cbv zeta. unfold sendrawtransaction. destruct decoded as [tx|].
  2: { split; [simpl; lia|]. intros tx fee Hin. by apply elem_of_nil in Hin. }
  destruct (mempool_exists S (tx_GetHash S tx)) eqn:Hpool;
    destruct (fHaveChain _) eqn:Hchain; cbn [negb andb fst];
    try (split; [simpl; lia|]; intros tx' fee Hin; set_solver).
  match goal with
  | |- context [AcceptToMemoryPool S tx ?fee] =>
      destruct (AcceptToMemoryPool S tx fee) as [[accepted state] missing]
  end.
  assert (Hfee : match allowhighfees with Some true => 0 | _ => maxTxFee S end
                 = if bool_decide (allowhighfees = Some true) then 0 else maxTxFee S).
  { destruct allowhighfees as [[|]|]; done. }
  destruct accepted; cbn [negb fst]; (split; [simpl; lia|]); intros tx' fee Hin.
  - apply elem_of_cons in Hin as [Hin|Hin].
    + injection Hin as Htx Hf. subst tx' fee. done.
    + apply list_elem_of_singleton in Hin. discriminate.
  - apply list_elem_of_singleton in Hin. injection Hin as Htx Hf. subst tx' fee. done.
Qed.

(** ** verifytxoutproof: what a non-empty answer means *)

(** X17.  When [verifytxoutproof] returns transaction ids, the root
    recomputed from the proof is the root of its header, the header is a
    block of the active chain, and the ids are the hex of the matches of
    the extraction, in order. *)
Theorem verifytxoutproof_matches M C merkleBlock ids :
  verifytxoutproof M C merkleBlock = Return ids ->
  ids <> [] ->
  (ExtractMatches M (txn merkleBlock)).1.1 = hashMerkleRoot (header merkleBlock)
  /\ block_in_chain C (header_hash (header merkleBlock)) = true
  /\ ids = GetHex M <$> (ExtractMatches M (txn merkleBlock)).1.2.
Proof.
  unfold verifytxoutproof.
  destruct (ExtractMatches M (txn merkleBlock)) as [[root vMatch] vIndex]. simpl.
  destruct (N.eqb_spec root (hashMerkleRoot (header merkleBlock))); simpl;
    [|by intros [= <-]].
  destruct (block_in_chain C _); simpl; [|discriminate].
  by intros [= <-].
Qed.

(** ** gettxoutproof: the parsing loop *)

Lemma last_cons_default {A} (l : list A) : forall a d,
  List.last (a :: l) d = List.last l a.
Proof.
  induction l as [|x l IH]; intros a d; [done|].
  change (List.last (a :: x :: l) d) with (List.last (x :: l) d).
  by rewrite !IH.
Qed.

(** X18.  When the list of transaction ids parses, every id has 64
    hexadecimal characters, the set built holds exactly the ids of the
    list, and the id kept to locate the block is the last one of the list
    (the null id for an empty list). *)
Theorem parse_txids_result P txids parsed :
  parse_txids P txids (∅, 0%N) = Return parsed ->
  Forall (fun txid => String.length txid = 64%nat /\ IsHex P txid = true) txids
  /\ parsed.1 = list_to_set (uint256S P <$> txids)
  /\ parsed.2 = List.last (uint256S P <$> txids) 0%N.
Proof.
  assert (Hgen : forall l acc r,
            parse_txids P l acc = Return r ->
            Forall (fun txid => String.length txid = 64%nat /\ IsHex P txid = true) l
            /\ r.1 = list_to_set (uint256S P <$> l) ∪ acc.1
            /\ r.2 = List.last (uint256S P <$> l) acc.2).
  { induction l as [|txid rest IH]; intros acc r; simpl.
    - intros [= <-]. split; [constructor|]. split; [set_solver|done].
    - destruct (Nat.eqb_spec (String.length txid) 64); simpl; [|discriminate].
      destruct (IsHex P txid) eqn:Hhex; simpl; [|discriminate].
      destruct (decide _); [discriminate|].
      intros (Hall & Hset & Hlast)%IH. cbn [fst snd] in *.
      split; [by constructor|]. split; [rewrite Hset; set_solver|].
      rewrite Hlast. symmetry. apply last_cons_default. }
  intros (Hall & Hset & Hlast)%Hgen. simpl in *.
  split; [done|]. split; [rewrite Hset; set_solver|done].
Qed.

(** ** signrawtransaction: keys *)

Lemma load_keys_with_wallet wallet unlocked E keys : forall ks,
  load_keys (with_wallet wallet unlocked E) keys ks = load_keys E keys ks.
Proof.
  induction keys as [|k rest IH]; intros ks; [done|]. simpl.
  destruct (SetString E k) as [key|]; [|done].
  destruct (key_IsValid E key); [|done]. apply IH.
Qed.

Lemma declare_all_with_wallet S wallet unlocked E fGivenKeys prevTxs : forall st,
  declare_all S (with_wallet wallet unlocked E) fGivenKeys prevTxs st
  = declare_all S E fGivenKeys prevTxs st.
Proof.
  induction prevTxs as [|entry rest IH]; intros st; [done|].
  rewrite !declare_all_cons.
  assert (Hstep : declare_prevout S (with_wallet wallet unlocked E) fGivenKeys st entry
                  = declare_prevout S E fGivenKeys st entry) by done.
  rewrite Hstep. destruct (declare_prevout S E fGivenKeys st entry); [|done].
  rewrite !rpc_bind_return. apply IH.
Qed.

(** X19.  When private keys are given, they are the only keys used: the
    call gives the same outcome with any wallet, locked or not, as on a
    node without wallet. *)
Theorem sign_engine_given_keys_ignores_wallet S E req keys wallet unlocked :
  req_privatekeys req = Some keys ->
  sign_engine S (with_wallet wallet unlocked E) req
  = sign_engine S (with_wallet None (Return ()) E) req.
Proof.
  intros Hkeys. unfold sign_engine.
  destruct (req_txVariants req) as [[|mergedTx rest]|]; try done.
  rewrite Hkeys. unfold keys_stage. rewrite !load_keys_with_wallet.
  destruct (load_keys E keys KeyStore_empty) as [ks|]; [|done].
  rewrite !rpc_bind_return. cbn [fst snd].
  destruct (req_prevTxs req) as [prevTxs|].
  - rewrite !declare_all_with_wallet. cbn [viewMempool_GetCoins with_wallet].
    destruct (declare_all S E true prevTxs _) as [declared|]; [|done].
    rewrite !rpc_bind_return. unfold choose_keystore. simpl. by destruct wallet.
  - rewrite !rpc_bind_return. unfold choose_keystore. simpl. by destruct wallet.
Qed.

(** X20.  The keys that enter the temporary keystore are exactly the given
    strings that decode to a valid key, in reverse order of the list; one
    string that does not decode, or decodes to an invalid key, makes the
    stage throw. *)
Theorem keys_stage_given E keys fGivenKeys ks :
  keys_stage E (Some keys) = Return (fGivenKeys, ks) ->
  fGivenKeys = true
  /\ ks_scripts ks = []
  /\ Forall2 (fun k key => SetString E k = Some key /\ key_IsValid E key = true)
       keys (rev (ks_keys ks)).
Proof.
  assert (Hgen : forall l ks0 ks1,
            load_keys E l ks0 = Return ks1 ->
            ks_scripts ks1 = ks_scripts ks0
            /\ exists new,
                 ks_keys ks1 = rev new ++ ks_keys ks0
                 /\ Forall2 (fun k key => SetString E k = Some key
                                          /\ key_IsValid E key = true) l new).
  { induction l as [|k rest IH]; intros ks0 ks1; simpl.
    - intros [= <-]. split; [done|]. exists []. split; [done|constructor].
    - destruct (SetString E k) as [key|] eqn:Hset; [|discriminate].
      destruct (key_IsValid E key) eqn:Hvalid; [|discriminate]. simpl.
      intros (Hs & new & Hk & Hall)%IH. split; [done|].
      exists (key :: new). split; [|by constructor].
      rewrite Hk. simpl. by rewrite <- app_assoc. }
  unfold keys_stage.
  destruct (load_keys E keys KeyStore_empty) as [ks1|] eqn:Hload; [|discriminate].
  rewrite rpc_bind_return. intros [= <- <-].
  destruct (Hgen _ _ _ Hload) as (Hs & new & Hk & Hall).
  split; [done|]. split; [done|].
  rewrite Hk. simpl. by rewrite app_nil_r, rev_involutive.
Qed.

(** ** signrawtransaction: the coin view *)

(** X21.  The view the signing loop resolves coins in, before any
    declaration: it knows a transaction id exactly when an input of the
    primary transaction spends from it and the chain-plus-pool backend has
    its coins. *)
Theorem fetch_inputs_lookup backend mergedTx (h : uint256) :
  fetch_inputs backend mergedTx !! h
  = if bool_decide (h ∈ (op_hash ∘ prevout) <$> vin mergedTx) then backend h else None.
Proof.
  unfold fetch_inputs.
  assert (Hgen : forall l (cache : gmap uint256 CCoins),
            fold_left (fun cache txin =>
                         AccessCoins_cached backend cache (op_hash (prevout txin)))
              l cache !! h
            = match cache !! h with
              | Some c => Some c
              | None => if bool_decide (h ∈ (op_hash ∘ prevout) <$> l)
                        then backend h else None
              end).
  { induction l as [|txin rest IH]; intros cache.
    - cbn [fold_left]. destruct (cache !! h); [done|].
      by rewrite bool_decide_false by set_solver.
    - cbn [fold_left]. rewrite IH, fmap_cons. unfold AccessCoins_cached.
      assert (Hcache : match cache !! op_hash (prevout txin) with
                       | Some _ => cache
                       | None =>
                           match backend (op_hash (prevout txin)) with
                           | Some coins => <[op_hash (prevout txin) := coins]> cache
                           | None => cache
                           end
                       end !! h
                       = match cache !! h with
                         | Some c => Some c
                         | None => if decide (h = op_hash (prevout txin))
                                   then backend h else None
                         end).
      { destruct (decide (h = op_hash (prevout txin))) as [->|Hne].
        - destruct (cache !! op_hash (prevout txin)) as [c|] eqn:Hc; [by rewrite Hc|].
          destruct (backend (op_hash (prevout txin))) as [c|] eqn:Hb.
          + by rewrite lookup_insert_eq.
          + by rewrite Hc.
        - destruct (cache !! op_hash (prevout txin)) as [c|] eqn:Hc.
          + by destruct (cache !! h).
          + destruct (backend (op_hash (prevout txin))).
            * rewrite lookup_insert_ne by done. by destruct (cache !! h).
            * by destruct (cache !! h). }
      rewrite Hcache. destruct (cache !! h) as [c|]; [done|].
      destruct (decide (h = op_hash (prevout txin))) as [->|Hne].
      + rewrite (bool_decide_true (_ ∈ _ :: _)) by set_solver.
        destruct (backend (op_hash (prevout txin))); [done|].
        by case_bool_decide.
      + apply (f_equal (fun b : bool => if b then backend h else None)).
        apply bool_decide_ext. set_solver. }
  rewrite Hgen, lookup_empty. done.
Qed.

Lemma declare_prevout_inv S E fGivenKeys view ks p view' ks' :
  declare_prevout S E fGivenKeys (view, ks) (Some p) = Return (view', ks') ->
  0 <= p_vout p
  /\ view' = <[p_txid p := overlay_write (ModifyCoins view (p_txid p))
                             (Z.to_nat (p_vout p)) p]> view.
Proof.
  unfold declare_prevout. destruct (Z.ltb_spec (p_vout p) 0); [discriminate|].
  cbn [fst snd].
  destruct (script_conflict _ _ _); [discriminate|].
  destruct (fGivenKeys && _).
  - destruct (RPCTypeCheckObj_redeemScript E p); [|discriminate].
    rewrite rpc_bind_return. destruct (p_redeemScript p); by intros [= <- <-].
  - by intros [= <- <-].
Qed.

Lemma overlay_write_lookup coins nOut p :
  coins_vout (overlay_write coins nOut p) !! nOut = Some (declared_output p).
Proof.
  unfold overlay_write. simpl. apply list_lookup_insert_eq.
  destruct (Nat.leb_spec (length (coins_vout coins)) nOut).
  - rewrite length_resize. lia.
  - lia.
Qed.

Lemma overlay_write_other coins nOut p n :
  n <> nOut ->
  IsAvailable (overlay_write coins nOut p) n = IsAvailable coins n
  /\ (IsAvailable coins n = true ->
      coins_vout (overlay_write coins nOut p) !! n = coins_vout coins !! n).
Proof.
  intros Hne. unfold IsAvailable, overlay_write. simpl.
  rewrite list_lookup_insert_ne by done.
  destruct (Nat.leb_spec (length (coins_vout coins)) nOut) as [Hle|Hgt]; [|done].
  destruct (decide (n < length (coins_vout coins))%nat) as [Hlt|Hge].
  - rewrite lookup_resize by lia. done.
  - rewrite (lookup_ge_None_2 (coins_vout coins) n) by lia.
    destruct (decide (n < nOut + 1)%nat).
    + rewrite lookup_resize_new by lia. done.
    + rewrite lookup_resize_old by lia. done.
Qed.

(** X22.  Declare, then resolve: after a declaration of [prevtxs] is
    accepted, its outpoint resolves in the view to the declared script with
    the declared amount (0 when no amount is given). *)
Theorem declare_prevout_then_lookup S E fGivenKeys view ks p view' ks' :
  declare_prevout S E fGivenKeys (view, ks) (Some p) = Return (view', ks') ->
  default 0 (p_amount p) <> -1 ->
  available_output view' (declared_outpoint p) = Some (declared_output p).
Proof.
  intros (Hvout & ->)%declare_prevout_inv Hamount.
  unfold available_output, declared_outpoint. simpl.
  rewrite lookup_insert_eq, Z_N_nat.
  unfold IsAvailable. rewrite overlay_write_lookup.
  unfold CTxOut_IsNull, declared_output. simpl.
  destruct (Z.eqb_spec (default 0 (p_amount p)) (-1)); done.
Qed.

(** X23.  A declaration changes the resolution of its own outpoint only:
    every other outpoint resolves after it as it did before. *)
Theorem declare_prevout_frame S E fGivenKeys view ks p view' ks' o :
  declare_prevout S E fGivenKeys (view, ks) (Some p) = Return (view', ks') ->
  o <> declared_outpoint p ->
  available_output view' o = available_output view o.
Proof.
  intros (Hvout & ->)%declare_prevout_inv Hother.
  unfold available_output.
  destruct (decide (op_hash o = p_txid p)) as [Heq|Hne].
  - rewrite Heq, lookup_insert_eq.
    assert (Hn : N.to_nat (op_n o) <> Z.to_nat (p_vout p)).
    { intros Hn. apply Hother. destruct o as [h n]. unfold declared_outpoint.
      simpl in *. f_equal; [done|]. lia. }
    destruct (overlay_write_other (ModifyCoins view (p_txid p)) (Z.to_nat (p_vout p))
                p (N.to_nat (op_n o)) Hn) as [Hav Hlook].
    rewrite Hav. unfold ModifyCoins in *.
    destruct (view !! p_txid p) as [coins|]; simpl in *.
    + destruct (IsAvailable coins (N.to_nat (op_n o))); [by apply Hlook|done].
    + unfold IsAvailable. simpl. done.
  - by rewrite lookup_insert_ne.
Qed.

(** ** signrawtransaction: what is recorded, and the sighash selector *)

Section ErrorReasons.
Variable S : ScriptEngine.
Variable view : gmap uint256 CCoins.
Variable keystore : KeyStore.
Variable nHashType : Z.
Variable txVariants : list CMutableTransaction.
Variable txConst : CTransaction.

Local Abbreviation known_reason :=
  (fun e => err_error e = "Input not found or already spent"%string
            \/ verification_failure S (err_error e)).

Lemma sign_input_reasons i st :
  Forall known_reason st.2 ->
  Forall known_reason
    (sign_input S view keystore nHashType txVariants txConst i st).2.
Proof.
  destruct st as [mergedTx vErrors]. intros Hall. unfold sign_input.
  destruct (vin mergedTx !! i) as [txin|]; [|done].
  destruct (available_output view (prevout txin)) as [coin|].
  - cbv zeta.
    match goal with
    | |- context [VerifyScript S ?a ?b ?c ?d ?e ?f ?g] =>
        destruct (VerifyScript S a b c d e f g) as [ok serror] eqn:Hverify
    end.
    destruct ok; simpl; [done|].
    apply Forall_app. split; [done|]. constructor; [|constructor].
    right. simpl. unfold verification_failure. by eexists _, _, _, _, _, _, _.
  - simpl. apply Forall_app. split; [done|]. constructor; [|constructor]. by left.
Qed.

Lemma sign_range_reasons k : forall i st,
  Forall known_reason st.2 ->
  Forall known_reason
    (sign_range S view keystore nHashType txVariants txConst i k st).2.
Proof.
  induction k as [|k IH]; intros i st Hall; [done|].
  rewrite sign_range_cons. apply IH. by apply sign_input_reasons.
Qed.
End ErrorReasons.

(** X24.  The only reasons ever recorded for an input are "Input not found
    or already spent" and the text of an error reported by the script
    verifier: the production and combination steps never add a record. *)
Theorem sign_all_error_reasons S view keystore nHashType txVariants mergedTx e :
  e ∈ (sign_all S view keystore nHashType txVariants mergedTx).2 ->
  err_error e = "Input not found or already spent"%string
  \/ verification_failure S (err_error e).
Proof.
  intros Hin. unfold sign_all in Hin.
  pose proof (sign_range_reasons S view keystore nHashType txVariants mergedTx
                (length (vin mergedTx)) 0 (mergedTx, [])) as Hall.
  simpl in Hall. specialize (Hall (List.Forall_nil _)).
  by apply (proj1 (Forall_forall _ _) Hall).
Qed.

Lemma mapSigHashValues_dom S (s : string) :
  is_Some (mapSigHashValues S !! s) <-> s ∈ sighash_names.
Proof.
  unfold mapSigHashValues. split.
  - intros [v Hv]. apply elem_of_list_to_map_2 in Hv.
    apply (list_elem_of_fmap_2 fst) in Hv. exact Hv.
  - intros Hs. destruct (list_to_map _ !! s) as [v|] eqn:Hl; [by eexists|].
    apply not_elem_of_list_to_map_2 in Hl. contradiction.
Qed.

(** X25.  The sighash selector: the six documented names are accepted and
    any other string is refused with RPC_INVALID_PARAMETER, so a call with
    an unknown selector signs nothing and returns no result. *)
Theorem signrawtransaction_unknown_sighash S E req s :
  req_sighashtype req = Some s ->
  s ∉ sighash_names ->
  parse_sighash S (Some s) = Throw RPC_INVALID_PARAMETER "Invalid sighash param"
  /\ (exists code msg, signrawtransaction S E req = Throw code msg)
  /\ forall s', s' ∈ sighash_names -> exists v, parse_sighash S (Some s') = Return v.
Proof.
  intros Hreq Hs.
  assert (Hparse : parse_sighash S (Some s)
                   = Throw RPC_INVALID_PARAMETER "Invalid sighash param").
  { unfold parse_sighash. destruct (mapSigHashValues S !! s) as [v|] eqn:Hl; [|done].
    exfalso. apply Hs. apply (proj1 (mapSigHashValues_dom S s)). by eexists. }
  split; [done|]. split.
  - unfold signrawtransaction, sign_engine.
    destruct (req_txVariants req) as [[|mergedTx rest]|]; try by eexists _, _.
    destruct (keys_stage E (req_privatekeys req)) as [keys|]; [|by eexists _, _].
    rewrite rpc_bind_return.
    destruct (match req_prevTxs req with Some _ => _ | None => _ end) as [declared|];
      [|by eexists _, _].
    rewrite rpc_bind_return, Hreq, Hparse. by eexists _, _.
  - intros s' Hs'. destruct (proj2 (mapSigHashValues_dom S s') Hs') as [v Hv].
    exists v. unfold parse_sighash. by rewrite Hv.
Qed.

(** ** The statements above on the samples *)

Lemma build_rawtx_unsigned_witness :
  nVersion SampleMore.created = 1
  /\ Z.of_N (nLockTime SampleMore.created) = 500
  /\ 0 <= 500 <= uint32_max
  /\ Forall2 (fun o txin =>
                op_hash (prevout txin) = Create.txid o
                /\ Create.vout_v o = VNUM (Z.of_N (op_n (prevout txin)))
                /\ scriptSig txin = [])
       SampleMore.inputs (vin SampleMore.created)
  /\ wit_vtxinwit SampleMore.created = []
  /\ length (vout SampleMore.created) = length SampleMore.sendTo.
Proof.
  apply (build_rawtx_unsigned SampleMore.creator SampleMore.inputs SampleMore.sendTo
           (Some 500) SampleMore.created).
  vm_compute. reflexivity.
Defined.

Lemma build_rawtx_sequence_witness :
  Forall2 (fun o txin => Z.of_N (nSequence txin) = expected_sequence (Some 500) o)
    SampleMore.inputs (vin SampleMore.created).
Proof.
  apply (build_rawtx_sequence SampleMore.creator SampleMore.inputs SampleMore.sendTo
           (Some 500) SampleMore.created).
  vm_compute. reflexivity.
Defined.

Lemma build_rawtx_outputs_witness :
  Forall2 (output_for SampleMore.creator SampleMore.sendTo)
    SampleMore.sendTo.*1 (vout SampleMore.created).
Proof.
  apply (build_rawtx_outputs SampleMore.creator SampleMore.inputs SampleMore.sendTo
           (Some 500) SampleMore.created).
  vm_compute. reflexivity.
Defined.

Lemma createrawtransaction_duplicate_address_witness :
  exists code msg,
    createrawtransaction SampleMore.creator (Some SampleMore.inputs)
      (Some SampleMore.sendTo_duplicate) None = Throw code msg.
Proof.
  apply (createrawtransaction_duplicate_address SampleMore.creator SampleMore.inputs
           SampleMore.sendTo_duplicate None).
  apply (bool_decide_unpack _). vm_compute. exact I.
Defined.

Lemma decodescript_fields_witness :
  exists r type,
    VOBJ [("asm", VSTR "asm"); ("reqSigs", VNUM 1); ("type", VSTR "pubkeyhash");
          ("addresses", VARR [VSTR "key0x1"]); ("p2sh", VSTR "script0x1")]%string
    = VOBJ r
    /\ has_key r "hex" = false
    /\ has_key r "asm" = true
    /\ find_value r "type" = VSTR type
    /\ has_key r "p2sh" = negb (String.eqb type "scripthash").
Proof.
  apply (decodescript_fields SampleMore.render "00").
  vm_compute. reflexivity.
Defined.

Lemma decoderawtransaction_shape_witness :
  exists entries ins outs,
    decoderawtransaction SampleMore.render Sample.chain "01" = Return (VOBJ entries)
    /\ find_value entries "txid"
       = VSTR (Render.GetHex SampleMore.render
                 (Render.GetHash SampleMore.render Sample.spend))
    /\ find_value entries "vin" = VARR ins
    /\ length ins = length (vin Sample.spend)
    /\ (forall i txin, vin Sample.spend !! i = Some txin ->
          ins !! i = Some (txin_entry SampleMore.render Sample.spend i txin))
    /\ find_value entries "vout" = VARR outs
    /\ length outs = length (vout Sample.spend)
    /\ (forall i txout, vout Sample.spend !! i = Some txout ->
          exists fields,
            outs !! i = Some (VOBJ fields)
            /\ find_value fields "n" = VNUM (Z.of_nat i)
            /\ find_value fields "value"
               = Render.ValueFromAmount SampleMore.render (nValue txout))
    /\ has_key entries "blockhash" = false
    /\ has_key entries "confirmations" = false
    /\ has_key entries "time" = false.
Proof.
  apply (decoderawtransaction_shape SampleMore.render Sample.chain "01" Sample.spend).
  reflexivity.
Defined.

Lemma TxToJSON_block_fields_witness :
  find_value (TxToJSON SampleMore.render Sample.chain (Sample.tx_with_id 21) 7%N [])
    "confirmations" = VNUM 1.
Proof.
  exact (proj1 (proj2 (TxToJSON_block_fields SampleMore.render Sample.chain
                         (Sample.tx_with_id 21) 7%N
                         ltac:(discriminate)))).
Defined.

Lemma getrawtransaction_plain_witness :
  getrawtransaction SampleMore.render Sample.chain SampleMore.tx_lookup 21%N None
  = Return (VSTR "0x15").
Proof.
  apply (getrawtransaction_plain SampleMore.render Sample.chain SampleMore.tx_lookup
           21%N None).
  left. reflexivity.
Defined.




Lemma verifytxoutproof_matches_witness :
  (ExtractMatches Sample.codec (txn SampleMore.proof_known_header)).1.1
  = hashMerkleRoot (header SampleMore.proof_known_header)
  /\ block_in_chain Sample.chain (header_hash (header SampleMore.proof_known_header))
     = true
  /\ ["0x1"%string]
     = GetHex Sample.codec
         <$> (ExtractMatches Sample.codec (txn SampleMore.proof_known_header)).1.2.
Proof.
  apply (verifytxoutproof_matches Sample.codec Sample.chain
           SampleMore.proof_known_header ["0x1"%string]).
  - vm_compute. reflexivity.
  - discriminate.
Defined.

Lemma parse_txids_result_witness :
  Forall (fun txid => String.length txid = 64%nat /\ IsHex Sample.parsers txid = true)
    [Sample.txid_1; Sample.txid_3]
  /\ ({[3%N; 1%N]} : gset uint256, 3%N).1
     = list_to_set (uint256S Sample.parsers <$> [Sample.txid_1; Sample.txid_3])
  /\ ({[3%N; 1%N]} : gset uint256, 3%N).2
     = List.last (uint256S Sample.parsers <$> [Sample.txid_1; Sample.txid_3]) 0%N.
Proof.
  apply (parse_txids_result Sample.parsers [Sample.txid_1; Sample.txid_3]
           ({[3%N; 1%N]}, 3%N)).
  vm_compute. reflexivity.
Defined.

Lemma sign_engine_given_keys_ignores_wallet_witness :
  sign_engine Sample.engine
    (with_wallet (Some (AddKey [Byte.x42] KeyStore_empty))
       (Throw RPC_WALLET_UNLOCK_NEEDED "Error: Please enter the wallet passphrase")
       Sample.node)
    Sample.request
  = sign_engine Sample.engine (with_wallet None (Return ()) Sample.node) Sample.request.
Proof.
  apply (sign_engine_given_keys_ignores_wallet Sample.engine Sample.node Sample.request
           ["A"%string]).
  reflexivity.
Defined.

Lemma keys_stage_given_witness :
  true = true
  /\ ks_scripts (AddKey [Byte.x42] (AddKey [Byte.x41] KeyStore_empty)) = []
  /\ Forall2 (fun k key => SetString Sample.node k = Some key
                           /\ key_IsValid Sample.node key = true)
       ["A"; "B"]%string
       (rev (ks_keys (AddKey [Byte.x42] (AddKey [Byte.x41] KeyStore_empty)))).
Proof.
  apply (keys_stage_given Sample.node ["A"; "B"]%string true
           (AddKey [Byte.x42] (AddKey [Byte.x41] KeyStore_empty))).
  reflexivity.
Defined.

Lemma declare_prevout_then_lookup_witness :
  available_output
    (<[12%N := overlay_write (ModifyCoins Sample.view 12%N) 0
                 (Sample.declaration 12%N 0 [Byte.x43])]> Sample.view)
    (declared_outpoint (Sample.declaration 12%N 0 [Byte.x43]))
  = Some (declared_output (Sample.declaration 12%N 0 [Byte.x43])).
Proof.
  apply (declare_prevout_then_lookup Sample.engine Sample.node true Sample.view
           KeyStore_empty (Sample.declaration 12%N 0 [Byte.x43]) _ KeyStore_empty).
  - reflexivity.
  - simpl. lia.
Defined.

Lemma declare_prevout_frame_witness :
  available_output
    (<[12%N := overlay_write (ModifyCoins Sample.view 12%N) 0
                 (Sample.declaration 12%N 0 [Byte.x43])]> Sample.view)
    {| op_hash := 11%N; op_n := 1%N |}
  = available_output Sample.view {| op_hash := 11%N; op_n := 1%N |}.
Proof.
  apply (declare_prevout_frame Sample.engine Sample.node true Sample.view
           KeyStore_empty (Sample.declaration 12%N 0 [Byte.x43]) _ KeyStore_empty).
  - reflexivity.
  - discriminate.
Defined.

Lemma sign_all_error_reasons_witness :
  err_error Sample.not_found_record = "Input not found or already spent"%string
  \/ verification_failure Sample.engine (err_error Sample.not_found_record).
Proof.
  apply (sign_all_error_reasons Sample.engine Sample.view KeyStore_empty 1
           [Sample.spend] Sample.spend Sample.not_found_record).
  vm_compute. apply list_elem_of_further, list_elem_of_here.
Defined.

Lemma signrawtransaction_unknown_sighash_witness :
  parse_sighash Sample.engine (Some "ALL|SINGLE"%string)
  = Throw RPC_INVALID_PARAMETER "Invalid sighash param"
  /\ (exists code msg,
        signrawtransaction Sample.engine Sample.node
          {| req_txVariants := Some [Sample.spend];
             req_prevTxs := None;
             req_privatekeys := None;
             req_sighashtype := Some "ALL|SINGLE"%string |} = Throw code msg)
  /\ forall s', s' ∈ sighash_names ->
       exists v, parse_sighash Sample.engine (Some s') = Return v.
Proof.
  apply (signrawtransaction_unknown_sighash Sample.engine Sample.node
           {| req_txVariants := Some [Sample.spend];
              req_prevTxs := None;
              req_privatekeys := None;
              req_sighashtype := Some "ALL|SINGLE"%string |} "ALL|SINGLE"%string).
  - reflexivity.
  - apply (bool_decide_unpack _). vm_compute. exact I.
Defined.
